(** * Excel comparator: identifier-keyed reconciliation of two workbooks

    A shallow embedding of [excel_comparator.py]: the composite key of a row,
    the two key dictionaries, the loop that sorts every key into identical /
    modified / only-in-file-1 / only-in-file-2, the column statistics and the
    overall roll-up, followed by the properties proved about them. *)

From Stdlib Require Import ZArith Ascii String DecimalString.
From stdpp Require Import gmap strings list fin_maps.

Open Scope string_scope.
Open Scope list_scope.
#[local] Set Warnings "-clear-no-such-hyp".

(** ** Python strings *)

Module PyStr.

(** [str.isspace] on one character.  A string is the sequence of its code
    points and the model covers the code points below 256, where Python
    counts TAB..CR, FS..US, SPACE, NEL (0x85) and NBSP (0xA0) as blank. *)
Definition isspace (c : ascii) : bool :=
  let n := nat_of_ascii c in
  ((9 <=? n)%nat && (n <=? 13)%nat) || ((28 <=? n)%nat && (n <=? 32)%nat)
  || (n =? 133)%nat || (n =? 160)%nat.

Fixpoint lstrip (s : string) : string :=
  match s with
  | EmptyString => EmptyString
  | String c rest => if isspace c then lstrip rest else s
  end.

Fixpoint rstrip (s : string) : string :=
  match s with
  | EmptyString => EmptyString
  | String c rest =>
      match rstrip rest with
      | EmptyString => if isspace c then EmptyString else String c EmptyString
      | kept => String c kept
      end
  end.

(** [s.strip()] *)
Definition strip (s : string) : string := rstrip (lstrip s).

(** [sep.join(parts)] *)
Fixpoint join (sep : string) (parts : list string) : string :=
  match parts with
  | [] => EmptyString
  | [p] => p
  | p :: rest => p +:+ sep +:+ join sep rest
  end.

(** [c in s] for a single character [c]. *)
Fixpoint has_char (c : ascii) (s : string) : bool :=
  match s with
  | EmptyString => false
  | String d rest => if Ascii.eqb c d then true else has_char c rest
  end.

End PyStr.

(** ** Cell values *)

(** A cell as pandas hands it over.  The comparator looks at a cell only
    through [pd.isna] and [str], so a scalar of a type not listed here (a
    float, a Timestamp) is carried by the text [str] prints for it. *)
Inductive Value : Type :=
| VNull                      (* None, NaN, NaT *)
| VStr (s : string)
| VInt (n : Z)
| VBool (b : bool)
| VRepr (text : string).

#[global] Instance Value_eq_dec : EqDecision Value.
Proof. solve_decision. Defined.

(** [pd.isna(value)] *)
Definition isna (v : Value) : bool :=
  match v with
  | VNull => true
  | _ => false
  end.

(** [str(value)] *)
Definition py_str (v : Value) : string :=
  match v with
  | VNull => "nan"
  | VStr s => s
  | VInt n => NilZero.string_of_int (Z.to_int n)
  | VBool true => "True"
  | VBool false => "False"
  | VRepr text => text
  end.

(** ** Rows and frames *)

(** A pandas Series holding one row: column label to cell. *)
Abbreviation Series := (gmap string Value).

(** A frame is rectangular: every row has one cell per column of the frame,
    NaN where the sheet had nothing.  [df_rows] keeps what each sheet row
    holds; [row_series] reads it through the frame's columns. *)
Record DataFrame : Type := {
  df_columns : list string;
  df_rows : list (gmap string Value)
}.

Definition cell (r : gmap string Value) (col : string) : Value :=
  default VNull (r !! col).

Definition row_series (columns : list string) (r : gmap string Value) : Series :=
  foldr (λ col s, <[col := cell r col]> s) ∅ columns.

(** [df.iloc[i]]: [None] stands for the IndexError of a position out of range. *)
Definition iloc (df : DataFrame) (i : nat) : option Series :=
  row_series (df_columns df) <$> df_rows df !! i.

(** ** Key builder *)

Definition UNIQUE_IDENTIFIERS : list string :=
  ["Channel Name"; "Program Date"; "Clip Start Time"].

(** The body of the loop that [create_composite_key] and
    [extract_identifier_values] share: the token of one identifier column. *)
Definition identifier_token (row : Series) (col : string) : string :=
  match row !! col with
  | Some value => if isna value then "NULL" else PyStr.strip (py_str value)
  | None => "MISSING"
  end.

Definition create_composite_key (row : Series) (identifier_columns : list string)
  : string :=
  PyStr.join "|" (identifier_token row <$> identifier_columns).

Definition extract_identifier_values (row : Series) (identifier_columns : list string)
  : gmap string string :=
  foldl (λ identifier_values col, <[col := identifier_token row col]> identifier_values)
        ∅ identifier_columns.

(** ** Iterating a Python set

    [list(s)] and [for key in s] visit the members of a set once each, in an
    order the language leaves open.  The analysis is therefore run under an
    arbitrary enumeration: a function from sets to lists that returns the
    members of the set, each once. *)
Record SetOrder : Type := {
  to_list : gset string → list string;
  to_list_perm : ∀ s, to_list s ≡ₚ elements s
}.

Definition elements_order : SetOrder :=
  {| to_list := elements; to_list_perm := λ s, reflexivity (elements s) |}.

(** ** Record index *)

(** [{row['COMPOSITE_KEY']: idx for idx, row in df_with_key.iterrows()}],
    over the key column from position [idx] on; [idx] is the label of the
    row in the default RangeIndex, its position.  A later row with the same
    key overwrites the entry of an earlier one. *)
Fixpoint index_from (idx : nat) (keys : list string) (d : gmap string nat)
  : gmap string nat :=
  match keys with
  | [] => d
  | key :: rest => index_from (S idx) rest (<[key := idx]> d)
  end.

(** The column [COMPOSITE_KEY] that [apply(..., axis=1)] computes. *)
Definition composite_key_column (df : DataFrame) (identifiers : list string)
  : list string :=
  (λ r, create_composite_key (row_series (df_columns df) r) identifiers) <$> df_rows df.

Definition key_dict (df : DataFrame) (identifiers : list string) : gmap string nat :=
  index_from 0 (composite_key_column df identifiers) ∅.

(** ** Difference records *)

Record IdenticalRow : Type := {
  ir_composite_key : string;
  ir_file1_index : nat;
  ir_file2_index : nat;
  ir_identifier_values : gmap string string
}.

Record ModifiedRow : Type := {
  mr_composite_key : string;
  mr_file1_index : nat;
  mr_file2_index : nat;
  mr_modified_columns : gmap string (Value * Value);
  mr_identifier_values : gmap string string
}.

(** An entry of [rows_only_in_file1] or [rows_only_in_file2]; [ur_index] is
    [file1_index] in the first list and [file2_index] in the second. *)
Record UniqueRow : Type := {
  ur_composite_key : string;
  ur_index : nat;
  ur_data : Series;
  ur_identifier_values : gmap string string
}.

(** The four lists the loop appends to. *)
Record Rows : Type := {
  rows_only_in_file1 : list UniqueRow;
  rows_only_in_file2 : list UniqueRow;
  identical_rows : list IdenticalRow;
  modified_rows : list ModifiedRow
}.

Definition no_rows : Rows :=
  {| rows_only_in_file1 := []; rows_only_in_file2 := [];
     identical_rows := []; modified_rows := [] |}.

Record ColumnDifferences : Type := {
  file1_unique_columns : list string;
  file2_unique_columns : list string
}.

Record Summary : Type := {
  sum_total_rows_file1 : nat;
  sum_total_rows_file2 : nat;
  sum_rows_only_in_file1 : nat;
  sum_rows_only_in_file2 : nat;
  sum_identical_rows : nat;
  sum_modified_rows : nat;
  sum_common_columns : nat;
  sum_file1_unique_columns : nat;
  sum_file2_unique_columns : nat;
  sum_available_identifiers : list string;
  sum_missing_identifiers : list string
}.

Record Differences : Type := {
  rows : Rows;
  column_differences : ColumnDifferences;
  summary : Summary
}.

(** ** Reconciler *)

Definition in_both (df1 df2 : DataFrame) (identifier : string) : Prop :=
  identifier ∈ df_columns df1 ∧ identifier ∈ df_columns df2.

#[global] Instance in_both_dec df1 df2 identifier : Decision (in_both df1 df2 identifier).
Proof. unfold in_both. apply _. Defined.

Definition available_identifiers (df1 df2 : DataFrame) : list string :=
  filter (in_both df1 df2) UNIQUE_IDENTIFIERS.

Definition missing_identifiers (df1 df2 : DataFrame) : list string :=
  filter (λ identifier, ¬ in_both df1 df2 identifier) UNIQUE_IDENTIFIERS.

Definition column_set (df : DataFrame) : gset string := list_to_set (df_columns df).

(** The test of the [elif]: one side NaN, or the two texts differ. *)
Definition values_differ (val1 val2 : Value) : bool :=
  isna val1 || isna val2 || negb (String.eqb (py_str val1) (py_str val2)).

(** The loop over [common_columns] for one pair of rows.  [None] stands for
    the KeyError of [row[col]] when the row has no such label. *)
Fixpoint compare_columns (row1 row2 : Series) (cols : list string)
    (modified_cols : gmap string (Value * Value))
  : option (gmap string (Value * Value)) :=
  match cols with
  | [] => Some modified_cols
  | col :: rest =>
      val1 ← row1 !! col;
      val2 ← row2 !! col;
      if isna val1 && isna val2 then compare_columns row1 row2 rest modified_cols
      else if values_differ val1 val2
      then compare_columns row1 row2 rest (<[col := (val1, val2)]> modified_cols)
      else compare_columns row1 row2 rest modified_cols
  end.

Section reconcile.
Context (df1 df2 : DataFrame).
Context (available : list string) (df1_dict df2_dict : gmap string nat).
Context (common_columns : list string).

(** The body of [for key in all_keys]. *)
Definition compare_key (key : string) (acc : Rows) : option Rows :=
  match df1_dict !! key, df2_dict !! key with
  | Some row1_idx, Some row2_idx =>
      row1 ← iloc df1 row1_idx;
      row2 ← iloc df2 row2_idx;
      modified_cols ← compare_columns row1 row2 common_columns ∅;
      if bool_decide (modified_cols ≠ ∅)
      then Some {| rows_only_in_file1 := rows_only_in_file1 acc;
                   rows_only_in_file2 := rows_only_in_file2 acc;
                   identical_rows := identical_rows acc;
                   modified_rows := modified_rows acc ++
                     [{| mr_composite_key := key;
                         mr_file1_index := row1_idx;
                         mr_file2_index := row2_idx;
                         mr_modified_columns := modified_cols;
                         mr_identifier_values :=
                           extract_identifier_values row1 available |}] |}
      else Some {| rows_only_in_file1 := rows_only_in_file1 acc;
                   rows_only_in_file2 := rows_only_in_file2 acc;
                   identical_rows := identical_rows acc ++
                     [{| ir_composite_key := key;
                         ir_file1_index := row1_idx;
                         ir_file2_index := row2_idx;
                         ir_identifier_values :=
                           extract_identifier_values row1 available |}];
                   modified_rows := modified_rows acc |}
  | Some row1_idx, None =>
      row1 ← iloc df1 row1_idx;
      Some {| rows_only_in_file1 := rows_only_in_file1 acc ++
                [{| ur_composite_key := key;
                    ur_index := row1_idx;
                    ur_data := row1;
                    ur_identifier_values :=
                      extract_identifier_values row1 available |}];
              rows_only_in_file2 := rows_only_in_file2 acc;
              identical_rows := identical_rows acc;
              modified_rows := modified_rows acc |}
  | None, found =>
      row2_idx ← found;
      row2 ← iloc df2 row2_idx;
      Some {| rows_only_in_file1 := rows_only_in_file1 acc;
              rows_only_in_file2 := rows_only_in_file2 acc ++
                [{| ur_composite_key := key;
                    ur_index := row2_idx;
                    ur_data := row2;
                    ur_identifier_values :=
                      extract_identifier_values row2 available |}];
              identical_rows := identical_rows acc;
              modified_rows := modified_rows acc |}
  end.

Fixpoint compare_keys (keys : list string) (acc : Rows) : option Rows :=
  match keys with
  | [] => Some acc
  | key :: rest => acc' ← compare_key key acc; compare_keys rest acc'
  end.
End reconcile.

(** The locals of [analyze_differences]. *)
Definition df1_dict (df1 df2 : DataFrame) : gmap string nat :=
  key_dict df1 (available_identifiers df1 df2).

Definition df2_dict (df1 df2 : DataFrame) : gmap string nat :=
  key_dict df2 (available_identifiers df1 df2).

Definition common_columns (order : SetOrder) (df1 df2 : DataFrame) : list string :=
  to_list order (column_set df1 ∩ column_set df2).

Definition all_keys (df1 df2 : DataFrame) : gset string :=
  dom (df1_dict df1 df2) ∪ dom (df2_dict df1 df2).

(** [analyze_differences(df1, df2, ...)], under the set enumeration [order].
    The file and sheet names only reach the progress messages. *)
Definition analyze_differences (order : SetOrder) (df1 df2 : DataFrame)
  : option Differences :=
  let available := available_identifiers df1 df2 in
  let missing := missing_identifiers df1 df2 in
  found ← compare_keys df1 df2 available (df1_dict df1 df2) (df2_dict df1 df2)
            (common_columns order df1 df2)
            (to_list order (all_keys df1 df2)) no_rows;
  let column_differences :=
    {| file1_unique_columns := to_list order (column_set df1 ∖ column_set df2);
       file2_unique_columns := to_list order (column_set df2 ∖ column_set df1) |} in
  Some {| rows := found;
          column_differences := column_differences;
          summary :=
            {| sum_total_rows_file1 := length (df_rows df1);
               sum_total_rows_file2 := length (df_rows df2);
               sum_rows_only_in_file1 := length (rows_only_in_file1 found);
               sum_rows_only_in_file2 := length (rows_only_in_file2 found);
               sum_identical_rows := length (identical_rows found);
               sum_modified_rows := length (modified_rows found);
               sum_common_columns := length (common_columns order df1 df2);
               sum_file1_unique_columns := length (file1_unique_columns column_differences);
               sum_file2_unique_columns := length (file2_unique_columns column_differences);
               sum_available_identifiers := available;
               sum_missing_identifiers := missing |} |}.

(** ** Sheet comparator *)

(** The [stats] dictionary of [compare_excel_files]. *)
Record Statistics : Type := {
  file1_rows : nat;
  file1_columns : nat;
  file2_rows : nat;
  file2_columns : nat;
  st_common_columns : list string;
  st_file1_unique_columns : list string;
  st_file2_unique_columns : list string
}.

Definition sheet_statistics (order : SetOrder) (df1 df2 : DataFrame) : Statistics :=
  {| file1_rows := length (df_rows df1);
     file1_columns := length (df_columns df1);
     file2_rows := length (df_rows df2);
     file2_columns := length (df_columns df2);
     st_common_columns := to_list order (column_set df1 ∩ column_set df2);
     st_file1_unique_columns := to_list order (column_set df1 ∖ column_set df2);
     st_file2_unique_columns := to_list order (column_set df2 ∖ column_set df1) |}.

Record SheetResult : Type := {
  statistics : Statistics;
  differences : Differences
}.

(** A workbook once read: sheet name to frame. *)
Abbreviation Workbook := (gmap string DataFrame).

(** The loop over [common_sheets]; a sheet whose comparison raises is
    skipped ([except ... continue]). *)
Fixpoint compare_sheets (order : SetOrder) (file1 file2 : Workbook)
    (common_sheets : list string) : list (string * SheetResult) :=
  match common_sheets with
  | [] => []
  | sheet_name :: rest =>
      match
        df1 ← file1 !! sheet_name;
        df2 ← file2 !! sheet_name;
        found ← analyze_differences order df1 df2;
        Some {| statistics := sheet_statistics order df1 df2; differences := found |}
      with
      | Some result => (sheet_name, result) :: compare_sheets order file1 file2 rest
      | None => compare_sheets order file1 file2 rest
      end
  end.

(** [compare_excel_files] on two workbooks that could be read: [None] when
    they share no sheet, else the results by sheet, in the order visited. *)
Definition compare_excel_files (order : SetOrder) (file1 file2 : Workbook)
  : option (list (string * SheetResult)) :=
  let common_sheets := to_list order (dom file1 ∩ dom file2) in
  match common_sheets with
  | [] => None
  | _ => Some (compare_sheets order file1 file2 common_sheets)
  end.

(** ** Aggregate reporter *)

(** What [generate_summary_report] prints: the five counters and the verdict
    line ([true] for "Files are IDENTICAL"). *)
Record OverallStatistics : Type := {
  total_sheets : nat;
  sheets_with_differences : nat;
  total_modifications : nat;
  total_missing_rows_file1 : nat;
  total_missing_rows_file2 : nat;
  files_identical : bool
}.

(** The counters of the loop: sheets with differences, modifications, rows
    only in file 1, rows only in file 2. *)
Record Totals : Type := {
  t_sheets_with_differences : nat;
  t_modifications : nat;
  t_missing_rows_file1 : nat;
  t_missing_rows_file2 : nat
}.

Definition add_sheet (acc : Totals) (entry : string * SheetResult) : Totals :=
  let summary := summary (differences entry.2) in
  {| t_sheets_with_differences :=
       if (0 <? sum_modified_rows summary)%nat
          || (0 <? sum_rows_only_in_file1 summary)%nat
          || (0 <? sum_rows_only_in_file2 summary)%nat
       then t_sheets_with_differences acc + 1
       else t_sheets_with_differences acc;
     t_modifications := t_modifications acc + sum_modified_rows summary;
     t_missing_rows_file1 := t_missing_rows_file1 acc + sum_rows_only_in_file1 summary;
     t_missing_rows_file2 := t_missing_rows_file2 acc + sum_rows_only_in_file2 summary |}.

Definition generate_summary_report (comparison_results : list (string * SheetResult))
  : OverallStatistics :=
  let totals :=
    foldl add_sheet
          {| t_sheets_with_differences := 0; t_modifications := 0;
             t_missing_rows_file1 := 0; t_missing_rows_file2 := 0 |}
          comparison_results in
  {| total_sheets := length comparison_results;
     sheets_with_differences := t_sheets_with_differences totals;
     total_modifications := t_modifications totals;
     total_missing_rows_file1 := t_missing_rows_file1 totals;
     total_missing_rows_file2 := t_missing_rows_file2 totals;
     files_identical :=
       (t_modifications totals =? 0)%nat && (t_missing_rows_file1 totals =? 0)%nat
       && (t_missing_rows_file2 totals =? 0)%nat |}.

(** ** Console summary and report writer *)

(** The closing line of [display_difference_summary]: [true] for
    "RESULTS READY FOR EXCEL EXPORT", [false] for "NO DIFFERENCES FOUND". *)
Definition results_ready (summary : Summary) : bool :=
  (0 <? sum_modified_rows summary)%nat
  || (0 <? sum_rows_only_in_file1 summary)%nat
  || (0 <? sum_rows_only_in_file2 summary)%nat.

(** [s[:n]] *)
Fixpoint py_take (n : nat) (s : string) : string :=
  match n, s with
  | S n', String c rest => String c (py_take n' rest)
  | _, _ => EmptyString
  end.

(** The name of the detail sheet written for a compared sheet. *)
Definition safe_sheet_name (sheet_name : string) : string :=
  if (31 <? String.length ("Details_" +:+ sheet_name))%nat
  then py_take 31 ("Details_" +:+ sheet_name)
  else "Details_" +:+ sheet_name.

(** [len(set([r['composite_key'] for r in rows]))], the count the
    Identifier_Analysis sheet shows for the rows of one file only. *)
Definition unique_key_count (only_rows : list UniqueRow) : nat :=
  size (list_to_set (C := gset string) (ur_composite_key <$> only_rows)).

(** How many rows the loops of the All_Modifications block append to
    [mod_all_data]: one per changed column of each modified row of each
    sheet. *)
Definition mod_all_data_length (comparison_results : list (string * SheetResult))
  : nat :=
  sum_list_with
    (λ entry, sum_list_with (λ modif, size (mr_modified_columns modif))
                (modified_rows (rows (differences entry.2))))
    comparison_results.

(** What becomes of [first_mod] in [save_differences_to_excel]. *)
Inductive FirstMod : Type :=
| NotNeeded                       (* [mod_all_data] is empty: block skipped *)
| IndexError                      (* [...['modified_rows'][0]] on an empty list *)
| FirstOf (modif : ModifiedRow).

(** [if mod_all_data: first_mod =
       comparison_results[list(comparison_results.keys())[0]]
         ['differences']['modified_rows'][0]] *)
Definition first_mod (comparison_results : list (string * SheetResult)) : FirstMod :=
  if (mod_all_data_length comparison_results =? 0)%nat then NotNeeded
  else match comparison_results with
       | [] => IndexError
       | entry :: _ =>
           match modified_rows (rows (differences entry.2)) with
           | [] => IndexError
           | modif :: _ => FirstOf modif
           end
       end.

(** ** Vocabulary of the properties *)

(** The composite keys filed in each of the four lists. *)
Definition keys_only_in_file1 (found : Rows) : list string :=
  ur_composite_key <$> rows_only_in_file1 found.
Definition keys_only_in_file2 (found : Rows) : list string :=
  ur_composite_key <$> rows_only_in_file2 found.
Definition keys_identical (found : Rows) : list string :=
  ir_composite_key <$> identical_rows found.
Definition keys_modified (found : Rows) : list string :=
  mr_composite_key <$> modified_rows found.

Definition classified_keys (found : Rows) : list string :=
  keys_identical found ++ keys_modified found
  ++ keys_only_in_file1 found ++ keys_only_in_file2 found.

(** The null-aware rule in the words of the specification: two nulls are
    equal; exactly one null, or two texts that differ, is a change. *)
Definition cell_changed (val1 val2 : Value) : Prop :=
  (isna val1 = true ∧ isna val2 = false)
  ∨ (isna val1 = false ∧ isna val2 = true)
  ∨ (isna val1 = false ∧ isna val2 = false ∧ py_str val1 ≠ py_str val2).

(** Some common column of the two rows has changed. *)
Definition rows_differ (columns : list string) (row1 row2 : Series) : Prop :=
  ∃ col val1 val2,
    col ∈ columns ∧ row1 !! col = Some val1 ∧ row2 !! col = Some val2
    ∧ cell_changed val1 val2.

(** The two rows a key stands for differ on a common column. *)
Definition key_changed (df1 df2 : DataFrame) (dict1 dict2 : gmap string nat)
    (columns : list string) (key : string) : Prop :=
  ∃ row1_idx row2_idx row1 row2,
    dict1 !! key = Some row1_idx ∧ dict2 !! key = Some row2_idx
    ∧ iloc df1 row1_idx = Some row1 ∧ iloc df2 row2_idx = Some row2
    ∧ rows_differ columns row1 row2.

(** Every common column of the two rows matches. *)
Definition rows_agree (columns : list string) (row1 row2 : Series) : Prop :=
  ∀ col, col ∈ columns →
    ∃ val1 val2,
      row1 !! col = Some val1 ∧ row2 !! col = Some val2 ∧ ¬ cell_changed val1 val2.

(** The two rows a key stands for match on every common column. *)
Definition key_unchanged (df1 df2 : DataFrame) (dict1 dict2 : gmap string nat)
    (columns : list string) (key : string) : Prop :=
  ∃ row1_idx row2_idx row1 row2,
    dict1 !! key = Some row1_idx ∧ dict2 !! key = Some row2_idx
    ∧ iloc df1 row1_idx = Some row1 ∧ iloc df2 row2_idx = Some row2
    ∧ rows_agree columns row1 row2.

(** The four outcomes of a key, and the list each is filed in. *)
Inductive Outcome : Type := Identical | Modified | OnlyLeft | OnlyRight.

#[global] Instance Outcome_eq_dec : EqDecision Outcome.
Proof. solve_decision. Defined.

Definition filed (found : Rows) (o : Outcome) : list string :=
  match o with
  | Identical => keys_identical found
  | Modified => keys_modified found
  | OnlyLeft => keys_only_in_file1 found
  | OnlyRight => keys_only_in_file2 found
  end.

(** The outcome the specification assigns to a key. *)
Definition outcome_of (df1 df2 : DataFrame) (dict1 dict2 : gmap string nat)
    (columns : list string) (key : string) (o : Outcome) : Prop :=
  match o with
  | Identical => key_unchanged df1 df2 dict1 dict2 columns key
  | Modified => key_changed df1 df2 dict1 dict2 columns key
  | OnlyLeft => is_Some (dict1 !! key) ∧ dict2 !! key = None
  | OnlyRight => dict1 !! key = None ∧ is_Some (dict2 !! key)
  end.


(** The per-sheet counts the roll-up reads. *)
Definition sheet_modified (entry : string * SheetResult) : nat :=
  sum_modified_rows (summary (differences entry.2)).
Definition sheet_only_left (entry : string * SheetResult) : nat :=
  sum_rows_only_in_file1 (summary (differences entry.2)).
Definition sheet_only_right (entry : string * SheetResult) : nat :=
  sum_rows_only_in_file2 (summary (differences entry.2)).

Definition sheet_differs (entry : string * SheetResult) : Prop :=
  sheet_modified entry ≠ 0 ∨ sheet_only_left entry ≠ 0 ∨ sheet_only_right entry ≠ 0.

#[global] Instance sheet_differs_dec entry : Decision (sheet_differs entry).
Proof. unfold sheet_differs. apply _. Defined.

(** Every character of the text is blank. *)
Fixpoint all_blank (s : string) : bool :=
  match s with
  | EmptyString => true
  | String c rest => PyStr.isspace c && all_blank rest
  end.

(** The outcome of a key once the two sheets change places. *)
Definition swap_outcome (o : Outcome) : Outcome :=
  match o with
  | Identical => Identical
  | Modified => Modified
  | OnlyLeft => OnlyRight
  | OnlyRight => OnlyLeft
  end.


(** A frame with its rows replaced. *)
Definition with_rows (df : DataFrame) (new_rows : list (gmap string Value))
  : DataFrame :=
  {| df_columns := df_columns df; df_rows := new_rows |}.

(** What an entry of [modified_rows] records: the positions the two
    dictionaries give for its key, the identifier values of the left row,
    and, for each common column that changed, the two raw cells. *)
Definition modified_entry_ok (df1 df2 : DataFrame) (available : list string)
    (dict1 dict2 : gmap string nat) (columns : list string) (modif : ModifiedRow)
  : Prop :=
  ∃ row1 row2,
    dict1 !! mr_composite_key modif = Some (mr_file1_index modif)
    ∧ dict2 !! mr_composite_key modif = Some (mr_file2_index modif)
    ∧ iloc df1 (mr_file1_index modif) = Some row1
    ∧ iloc df2 (mr_file2_index modif) = Some row2
    ∧ mr_identifier_values modif = extract_identifier_values row1 available
    ∧ mr_modified_columns modif ≠ ∅
    ∧ ∀ col val1 val2,
        mr_modified_columns modif !! col = Some (val1, val2)
        ↔ col ∈ columns ∧ row1 !! col = Some val1 ∧ row2 !! col = Some val2
          ∧ cell_changed val1 val2.

(** What an entry of [identical_rows] records. *)
Definition identical_entry_ok (df1 df2 : DataFrame) (available : list string)
    (dict1 dict2 : gmap string nat) (columns : list string) (same : IdenticalRow)
  : Prop :=
  ∃ row1 row2,
    dict1 !! ir_composite_key same = Some (ir_file1_index same)
    ∧ dict2 !! ir_composite_key same = Some (ir_file2_index same)
    ∧ iloc df1 (ir_file1_index same) = Some row1
    ∧ iloc df2 (ir_file2_index same) = Some row2
    ∧ ir_identifier_values same = extract_identifier_values row1 available
    ∧ rows_agree columns row1 row2.

(** What an entry of [rows_only_in_file1] (or 2) records: the position its
    own dictionary gives for the key, absent from the other dictionary, and
    the whole row found there. *)
Definition unique_entry_ok (df : DataFrame) (available : list string)
    (own other : gmap string nat) (only : UniqueRow) : Prop :=
  own !! ur_composite_key only = Some (ur_index only)
  ∧ other !! ur_composite_key only = None
  ∧ iloc df (ur_index only) = Some (ur_data only)
  ∧ ur_identifier_values only = extract_identifier_values (ur_data only) available.

(** What a sheet of both workbooks contributes to the results. *)
Definition sheet_compared (order : SetOrder) (file1 file2 : gmap string DataFrame)
    (sheet_name : string) (entry : string * SheetResult) : Prop :=
  entry.1 = sheet_name
  ∧ ∃ df1 df2,
      file1 !! sheet_name = Some df1 ∧ file2 !! sheet_name = Some df2
      ∧ analyze_differences order df1 df2 = Some (differences entry.2)
      ∧ statistics entry.2 = sheet_statistics order df1 df2.

(** The modified rows of one sheet of the results. *)
Definition sheet_modified_rows (entry : string * SheetResult) : list ModifiedRow :=
  modified_rows (rows (differences entry.2)).

(** ** Sample sheets *)

Definition sample_left : DataFrame :=
  {| df_columns := ["Channel Name"; "Program Date"; "Clip Start Time"; "val"];
     df_rows := [ {[ "Channel Name" := VStr "A"; "Program Date" := VStr "2024-01-01";
                     "Clip Start Time" := VStr "10:00"; "val" := VInt 5 ]} ] |}.

Definition sample_right : DataFrame :=
  {| df_columns := ["Channel Name"; "Program Date"; "Clip Start Time"; "val"];
     df_rows := [ {[ "Channel Name" := VStr "A"; "Program Date" := VStr "2024-01-01";
                     "Clip Start Time" := VStr "10:00"; "val" := VInt 6 ]} ] |}.

(** The left sheet has no [Program Date] column; the right one has it, empty. *)
Definition undated_left : DataFrame :=
  {| df_columns := ["Channel Name"; "Clip Start Time"; "val"];
     df_rows := [ {[ "Channel Name" := VStr "A"; "Clip Start Time" := VStr "10:00";
                     "val" := VInt 5 ]} ] |}.

Definition null_dated_right : DataFrame :=
  {| df_columns := ["Channel Name"; "Program Date"; "Clip Start Time"; "val"];
     df_rows := [ {[ "Channel Name" := VStr "A"; "Program Date" := VNull;
                     "Clip Start Time" := VStr "10:00"; "val" := VInt 5 ]} ] |}.

(** Two rows with one composite key, and a third row of its own. *)
Definition repeated_key : DataFrame :=
  {| df_columns := ["Channel Name"; "Program Date"; "Clip Start Time"; "val"];
     df_rows := [ {[ "Channel Name" := VStr "A"; "Program Date" := VStr "2024-01-01";
                     "Clip Start Time" := VStr "10:00"; "val" := VInt 1 ]};
                  {[ "Channel Name" := VStr "A "; "Program Date" := VStr "2024-01-01";
                     "Clip Start Time" := VStr "10:00"; "val" := VInt 2 ]};
                  {[ "Channel Name" := VStr "B"; "Program Date" := VStr "2024-01-01";
                     "Clip Start Time" := VStr "10:00"; "val" := VInt 3 ]} ] |}.

(** A sheet with none of the identifier columns. *)
Definition unkeyed : DataFrame :=
  {| df_columns := ["val"];
     df_rows := [ {[ "val" := VInt 1 ]}; {[ "val" := VInt 2 ]} ] |}.



(** Two rows that normalize to the same tokens. *)
Definition padded_row : Series :=
  {[ "Channel Name" := VStr " A "; "Program Date" := VNull; "val" := VInt 1 ]}.

Definition trimmed_row : Series :=
  {[ "Channel Name" := VStr "A"; "Program Date" := VNull; "val" := VInt 2 ]}.

(** One record without the date field, and the same record with the date
    present and empty. *)
Definition undated_row : Series :=
  {[ "Channel Name" := VStr "A"; "Clip Start Time" := VStr "10:00" ]}.

Definition null_dated_row : Series :=
  {[ "Channel Name" := VStr "A"; "Program Date" := VNull;
     "Clip Start Time" := VStr "10:00" ]}.

(** Cells whose text is the text of a sentinel. *)
Definition null_text_row : Series := {[ "Program Date" := VStr " NULL " ]}.
Definition null_row : Series := {[ "Program Date" := VNull ]}.
Definition missing_text_row : Series := {[ "Program Date" := VStr "MISSING" ]}.

(** Two sheets of two records each, one shared key, no key twice. *)
Definition two_rows_left : DataFrame :=
  {| df_columns := ["Channel Name"; "Program Date"; "Clip Start Time"; "val"];
     df_rows := [ {[ "Channel Name" := VStr "A"; "Program Date" := VStr "2024-01-01";
                     "Clip Start Time" := VStr "10:00"; "val" := VInt 5 ]};
                  {[ "Channel Name" := VStr "B"; "Program Date" := VStr "2024-01-01";
                     "Clip Start Time" := VStr "11:00"; "val" := VInt 7 ]} ] |}.

Definition two_rows_right : DataFrame :=
  {| df_columns := ["Channel Name"; "Program Date"; "Clip Start Time"; "val"];
     df_rows := [ {[ "Channel Name" := VStr "C"; "Program Date" := VStr "2024-01-01";
                     "Clip Start Time" := VStr "12:00"; "val" := VInt 9 ]};
                  {[ "Channel Name" := VStr "A"; "Program Date" := VStr "2024-01-01";
                     "Clip Start Time" := VStr "10:00"; "val" := VInt 6 ]} ] |}.

(** Two workbooks of two sheets: the sheet visited first is the same in
    both, the second differs in one cell. *)
Definition book_left : gmap string DataFrame :=
  {[ "Sheet1" := sample_left; "Sheet2" := sample_left ]}.

Definition book_right : gmap string DataFrame :=
  {[ "Sheet1" := sample_left; "Sheet2" := sample_right ]}.

Definition book_results : list (string * SheetResult) :=
  default [] (compare_excel_files elements_order book_left book_right).

(** * Properties *)

(** ** Strings *)

Section strings.
Implicit Types (s t p q : string) (c : ascii).

Lemma append_cancel_l p s t : p +:+ s = p +:+ t → s = t.
Proof. induction p as [|c p IH]; simpl; [done|]. intros [= H]. auto. Qed.

Lemma has_char_head c s : PyStr.has_char c (String c s) = true.
Proof. simpl. by rewrite Ascii.eqb_refl. Qed.


Lemma join_cons sep p q rest :
  PyStr.join sep (p :: q :: rest) = p +:+ sep +:+ PyStr.join sep (q :: rest).
Proof. done. Qed.

End strings.

(** ** Rows of a frame *)

Lemma row_series_lookup columns r col :
  row_series columns r !! col
  = if decide (col ∈ columns) then Some (cell r col) else None.
Proof.
  induction columns as [|c columns IH].
  - unfold row_series; simpl. by rewrite lookup_empty.
  - change (row_series (c :: columns) r)
      with (<[c := cell r c]> (row_series columns r)).
    destruct (decide (c = col)) as [->|Hne].
    + rewrite lookup_insert_eq.
      destruct (decide (col ∈ col :: columns)) as [|H]; [done|].
      destruct H. apply elem_of_cons. by left.
    + rewrite lookup_insert_ne by done. rewrite IH.
      destruct (decide (col ∈ columns)) as [Hin|Hin],
               (decide (col ∈ c :: columns)) as [Hin'|Hin']; try done.
      * destruct Hin'. apply elem_of_cons. by right.
      * apply elem_of_cons in Hin' as [->|]; done.
Qed.

Lemma row_series_lookup_in columns r col :
  col ∈ columns → row_series columns r !! col = Some (cell r col).
Proof. intros H. rewrite row_series_lookup. by rewrite decide_True. Qed.

Lemma iloc_Some df i row :
  iloc df i = Some row ↔ ∃ r, df_rows df !! i = Some r ∧ row = row_series (df_columns df) r.
Proof.
  unfold iloc. destruct (df_rows df !! i) as [r|]; simpl; split.
  - intros [= <-]. eauto.
  - intros (r' & [= <-] & ->). done.
  - done.
  - by intros (r' & ? & _).
Qed.

(** ** The key dictionary *)

Section index.
Implicit Types (keys : list string) (d : gmap string nat).

Lemma index_from_notin idx keys d key :
  key ∉ keys → index_from idx keys d !! key = d !! key.
Proof.
  revert idx d. induction keys as [|k keys IH]; intros idx d Hk; simpl; [done|].
  apply not_elem_of_cons in Hk as [Hne Hk].
  rewrite IH by done. by rewrite lookup_insert_ne.
Qed.

(** The entry of a key is the position of its last occurrence. *)
Lemma index_from_last idx keys d key j :
  keys !! j = Some key →
  (∀ j', j < j' → keys !! j' ≠ Some key) →
  index_from idx keys d !! key = Some (idx + j).
Proof.
  revert idx d j. induction keys as [|k keys IH]; intros idx d j Hj Hlast; [done|].
  simpl. destruct j as [|j]; simpl in Hj.
  - injection Hj as ->. rewrite index_from_notin.
    + rewrite lookup_insert_eq. f_equal. lia.
    + intros [j' Hj']%list_elem_of_lookup. apply (Hlast (S j')); [lia|done].
  - rewrite (IH (S idx) _ j Hj).
    + f_equal. lia.
    + intros j' Hlt. apply (Hlast (S j')). lia.
Qed.

Lemma last_occurrence keys key :
  key ∈ keys →
  ∃ j, keys !! j = Some key ∧ ∀ j', j < j' → keys !! j' ≠ Some key.
Proof.
  induction keys as [|k keys IH]; [by intros ?%elem_of_nil|].
  intros Hin. destruct (decide (key ∈ keys)) as [Hk|Hk].
  - destruct (IH Hk) as (j & Hj & Hlast). exists (S j). split; [done|].
    intros [|j'] Hlt; [lia|]. simpl. apply Hlast. lia.
  - apply elem_of_cons in Hin as [->|]; [|done]. exists 0. split; [done|].
    intros [|j'] Hlt; [lia|]. simpl. intros Hj'.
    apply Hk, list_elem_of_lookup. eauto.
Qed.

Lemma index_from_dom idx keys d :
  dom (index_from idx keys d) = list_to_set keys ∪ dom d.
Proof.
  revert idx d. induction keys as [|k keys IH]; intros idx d; simpl.
  - set_solver.
  - rewrite IH, dom_insert_L. set_solver.
Qed.

(** What an entry found in the dictionary says about the key column. *)
Lemma index_from_Some idx keys key i :
  index_from idx keys ∅ !! key = Some i →
  ∃ j, i = idx + j ∧ keys !! j = Some key ∧ ∀ j', j < j' → keys !! j' ≠ Some key.
Proof.
  intros Hi. destruct (decide (key ∈ keys)) as [Hk|Hk].
  - destruct (last_occurrence keys key Hk) as (j & Hj & Hlast).
    rewrite (index_from_last idx keys ∅ key j Hj Hlast) in Hi.
    injection Hi as <-. eauto.
  - rewrite index_from_notin in Hi by done. by rewrite lookup_empty in Hi.
Qed.
End index.

Lemma key_dict_dom df identifiers :
  dom (key_dict df identifiers) = list_to_set (composite_key_column df identifiers).
Proof. unfold key_dict. rewrite index_from_dom. set_solver. Qed.

(** An entry of the dictionary is the position of a row with that key. *)
Lemma key_dict_Some df identifiers key i :
  key_dict df identifiers !! key = Some i →
  ∃ r, df_rows df !! i = Some r
       ∧ create_composite_key (row_series (df_columns df) r) identifiers = key.
Proof.
  intros (j & -> & Hj & _)%index_from_Some. simpl.
  unfold composite_key_column in Hj. rewrite list_lookup_fmap in Hj.
  destruct (df_rows df !! j) as [r|]; [|done]. injection Hj as <-. eauto.
Qed.

Lemma key_dict_iloc df identifiers key i :
  key_dict df identifiers !! key = Some i →
  ∃ row, iloc df i = Some row ∧ create_composite_key row identifiers = key.
Proof.
  intros (r & Hr & Hk)%key_dict_Some. exists (row_series (df_columns df) r).
  split; [|done]. apply iloc_Some. eauto.
Qed.

(** ** Change detection on one pair of rows *)

(** The [if]/[elif] of the source decides the rule of the specification. *)
Lemma cell_changed_iff val1 val2 :
  cell_changed val1 val2
  ↔ isna val1 && isna val2 = false ∧ values_differ val1 val2 = true.
Proof.
  unfold cell_changed, values_differ.
  destruct (isna val1), (isna val2); simpl.
  - split; [intros [[_ [=]]|[[[=] _]|[[=] _]]]|intros [[=] _]].
  - split; [intros _; done|intros _; left; done].
  - split; [intros _; done|intros _; right; left; done].
  - rewrite negb_true_iff, String.eqb_neq. split.
    + intros [[[=] _]|[[_ [=]]|(_ & _ & H)]]. done.
    + intros [_ H]. right. right. done.
Qed.

Lemma rows_differ_nil row1 row2 : ¬ rows_differ [] row1 row2.
Proof. intros (col & ? & ? & Hin & _). by apply elem_of_nil in Hin. Qed.

Lemma rows_differ_cons col rest row1 row2 val1 val2 :
  row1 !! col = Some val1 → row2 !! col = Some val2 →
  rows_differ (col :: rest) row1 row2
  ↔ cell_changed val1 val2 ∨ rows_differ rest row1 row2.
Proof.
  intros H1 H2. split.
  - intros (c & v1 & v2 & Hin & Hv1 & Hv2 & Hch).
    apply elem_of_cons in Hin as [->|Hin].
    + left. congruence.
    + right. exists c, v1, v2. done.
  - intros [Hch|(c & v1 & v2 & Hin & Hv1 & Hv2 & Hch)].
    + exists col, val1, val2. split; [by left|done].
    + exists c, v1, v2. split; [by right|done].
Qed.

(** The loop over the columns reads every column on both sides.  It ends
    with the dictionary of changes empty when it started empty and no column
    has changed, and non-empty otherwise. *)
Lemma compare_columns_Some row1 row2 cols m m' :
  compare_columns row1 row2 cols m = Some m' →
  (∀ col, col ∈ cols → is_Some (row1 !! col) ∧ is_Some (row2 !! col))
  ∧ ((m' = ∅ ∧ m = ∅ ∧ ¬ rows_differ cols row1 row2)
     ∨ (m' ≠ ∅ ∧ (m ≠ ∅ ∨ rows_differ cols row1 row2))).
Proof.
  revert m. induction cols as [|col rest IH]; intros m; simpl.
  - intros [= <-]. split; [by intros ? ?%elem_of_nil|].
    destruct (decide (m = ∅)) as [->|Hm]; [left|right; auto].
    split_and!; [done..|apply rows_differ_nil].
  - destruct (row1 !! col) as [val1|] eqn:H1; [|done].
    destruct (row2 !! col) as [val2|] eqn:H2; [|done]. simpl.
    pose proof (rows_differ_cons col rest row1 row2 val1 val2 H1 H2) as Hcons.
    pose proof (cell_changed_iff val1 val2) as Hch.
    assert (∀ m0, compare_columns row1 row2 rest m0 = Some m' →
              ∀ c, c ∈ col :: rest → is_Some (row1 !! c) ∧ is_Some (row2 !! c))
      as Hread.
    { intros m0 [Hr _]%IH c [->|Hc]%elem_of_cons; [|by apply Hr].
      rewrite H1, H2. split; eauto. }
    destruct (isna val1 && isna val2) eqn:Hboth.
    + intros Hrest. split; [by eapply Hread|].
      apply IH in Hrest as [_ Hrest]. rewrite Hcons, Hch. naive_solver.
    + destruct (values_differ val1 val2) eqn:Hdiff.
      * intros Hrest. split; [by eapply Hread|].
        apply IH in Hrest as [_ [(_ & Hins & _)|[Hne _]]].
        -- by apply insert_non_empty in Hins.
        -- right. split; [done|]. right. apply Hcons. left. by apply Hch.
      * intros Hrest. split; [by eapply Hread|].
        apply IH in Hrest as [_ Hrest]. rewrite Hcons, Hch. naive_solver.
Qed.

Lemma compare_columns_total row1 row2 cols m :
  (∀ col, col ∈ cols → is_Some (row1 !! col) ∧ is_Some (row2 !! col)) →
  is_Some (compare_columns row1 row2 cols m).
Proof.
  revert m. induction cols as [|col rest IH]; intros m Hread; simpl; [eauto|].
  destruct (Hread col) as [[val1 ->] [val2 ->]]; [by left|]. simpl.
  assert (∀ m0, is_Some (compare_columns row1 row2 rest m0)) as Hrest.
  { intros m0. apply IH. intros c Hc. apply Hread. by right. }
  destruct (isna val1 && isna val2); [done|].
  destruct (values_differ val1 val2); done.
Qed.

(** With every column read, the rows either differ or agree. *)
Lemma rows_agree_iff cols row1 row2 :
  (∀ col, col ∈ cols → is_Some (row1 !! col) ∧ is_Some (row2 !! col)) →
  rows_agree cols row1 row2 ↔ ¬ rows_differ cols row1 row2.
Proof.
  intros Hread. split.
  - intros Hagree (col & v1 & v2 & Hin & H1 & H2 & Hch).
    destruct (Hagree col Hin) as (w1 & w2 & Hw1 & Hw2 & Hno). congruence.
  - intros Hno col Hin. destruct (Hread col Hin) as [[v1 H1] [v2 H2]].
    exists v1, v2. split_and!; [done..|].
    intros Hch. apply Hno. exists col, v1, v2. done.
Qed.

(** ** The loop over the keys *)

Lemma filed_app_cases (acc acc' : Rows) (key : string) (o : Outcome) :
  (∀ o', filed acc' o' = filed acc o' ++ if decide (o' = o) then [key] else []) →
  classified_keys acc' ≡ₚ key :: classified_keys acc.
Proof.
  intros H. unfold classified_keys.
  pose proof (H Identical) as HI. pose proof (H Modified) as HM.
  pose proof (H OnlyLeft) as HL. pose proof (H OnlyRight) as HR.
  simpl in HI, HM, HL, HR. rewrite HI, HM, HL, HR.
  destruct o; simpl; rewrite ?app_nil_r.
  - rewrite <- !app_assoc. simpl. by rewrite <- Permutation_middle.
  - rewrite <- !app_assoc. simpl. by rewrite <- !Permutation_middle.
  - rewrite <- !app_assoc. simpl. by rewrite <- !Permutation_middle.
  - rewrite !app_assoc. by rewrite <- Permutation_cons_append.
Qed.

Section reconcile_facts.
Context (df1 df2 : DataFrame).
Context (available : list string) (dict1 dict2 : gmap string nat).
Context (columns : list string).

Local Abbreviation step := (compare_key df1 df2 available dict1 dict2 columns).
Local Abbreviation loop := (compare_keys df1 df2 available dict1 dict2 columns).
Local Abbreviation outcome := (outcome_of df1 df2 dict1 dict2 columns).

(** A key has at most one outcome. *)
Lemma changed_not_unchanged key :
  key_changed df1 df2 dict1 dict2 columns key →
  key_unchanged df1 df2 dict1 dict2 columns key → False.
Proof.
  intros (i' & j' & r1' & r2' & H1' & H2' & Hr1' & Hr2' & Hdiff)
         (i & j & r1 & r2 & H1 & H2 & Hr1 & Hr2 & Hagree).
  assert (r1' = r1) as -> by congruence. assert (r2' = r2) as -> by congruence.
  destruct Hdiff as (col & v1 & v2 & Hin & Hv1 & Hv2 & Hch).
  destruct (Hagree col Hin) as (w1 & w2 & Hw1 & Hw2 & Hno). congruence.
Qed.

Lemma outcome_unique key o o' : outcome key o → outcome key o' → o = o'.
Proof.
  destruct o, o'; try done; unfold outcome_of; intros H H'; exfalso;
    try (by eapply changed_not_unchanged);
    repeat match goal with
      | H : key_changed _ _ _ _ _ _ |- _ =>
          destruct H as (? & ? & ? & ? & ? & ? & _)
      | H : key_unchanged _ _ _ _ _ _ |- _ =>
          destruct H as (? & ? & ? & ? & ? & ? & _)
      | H : _ ∧ _ |- _ => destruct H
      | H : is_Some _ |- _ => destruct H
      end; congruence.
Qed.

(** One pass of the loop body files the key in the list of its outcome
    and leaves the other three lists alone. *)
Lemma compare_key_Some key acc acc' :
  step key acc = Some acc' →
  ∃ o, outcome key o
       ∧ ∀ o', filed acc' o' = filed acc o' ++ if decide (o' = o) then [key] else [].
Proof.
  unfold compare_key.
  destruct (dict1 !! key) as [i|] eqn:H1, (dict2 !! key) as [j|] eqn:H2.
  - destruct (iloc df1 i) as [row1|] eqn:Hr1; [|done].
    destruct (iloc df2 j) as [row2|] eqn:Hr2; [|done]. simpl.
    destruct (compare_columns row1 row2 columns ∅) as [m|] eqn:Hm; [|done]. simpl.
    apply compare_columns_Some in Hm as [Hread Hm].
    case_bool_decide as Hne; intros [= <-].
    + exists Modified. split.
      * exists i, j, row1, row2. split_and!; try done.
        destruct Hm as [(-> & _)|[_ [?|?]]]; done.
      * intros []; unfold filed, keys_identical, keys_modified,
          keys_only_in_file1, keys_only_in_file2; simpl;
          rewrite ?fmap_app, ?app_nil_r; done.
    + exists Identical. split.
      * exists i, j, row1, row2. split_and!; try done.
        apply rows_agree_iff; [done|].
        destruct Hm as [(_ & _ & ?)|[Hm _]]; [done|].
        destruct Hne. done.
      * intros []; unfold filed, keys_identical, keys_modified,
          keys_only_in_file1, keys_only_in_file2; simpl;
          rewrite ?fmap_app, ?app_nil_r; done.
  - destruct (iloc df1 i) as [row1|] eqn:Hr1; [|done]. simpl. intros [= <-].
    exists OnlyLeft. split; [split; eauto|].
    intros []; unfold filed, keys_identical, keys_modified,
      keys_only_in_file1, keys_only_in_file2; simpl;
      rewrite ?fmap_app, ?app_nil_r; done.
  - simpl. destruct (iloc df2 j) as [row2|] eqn:Hr2; [|done]. simpl. intros [= <-].
    exists OnlyRight. split; [split; eauto|].
    intros []; unfold filed, keys_identical, keys_modified,
      keys_only_in_file1, keys_only_in_file2; simpl;
      rewrite ?fmap_app, ?app_nil_r; done.
  - done.
Qed.

(** After the loop, a list holds what it held before plus the keys visited
    whose outcome it stands for; together the lists grew by the keys
    visited. *)
Lemma compare_keys_Some keys acc acc' :
  loop keys acc = Some acc' →
  classified_keys acc' ≡ₚ classified_keys acc ++ keys
  ∧ ∀ o key, key ∈ filed acc' o ↔ key ∈ filed acc o ∨ (key ∈ keys ∧ outcome key o).
Proof.
  revert acc. induction keys as [|k keys IH]; intros acc; simpl.
  - intros [= <-]. rewrite app_nil_r. split; [done|].
    intros o key. rewrite elem_of_nil. naive_solver.
  - destruct (step k acc) as [mid|] eqn:Hstep; [|done]. simpl.
    intros [Hperm Hfiled]%IH.
    destruct (compare_key_Some _ _ _ Hstep) as (o0 & Ho0 & Happ).
    split.
    + rewrite Hperm, (filed_app_cases acc mid k o0 Happ).
      by rewrite <- Permutation_middle.
    + intros o key. rewrite Hfiled, Happ, elem_of_app, elem_of_cons.
      case_decide as Ho; [subst o0|].
      * rewrite list_elem_of_singleton. naive_solver.
      * rewrite elem_of_nil. split; [naive_solver|].
        intros [?|[[->|?] Hout]]; [naive_solver| |naive_solver].
        destruct Ho. by eapply outcome_unique.
Qed.

(** The loop runs to its end when every key visited is in one of the
    dictionaries, the dictionaries point at rows of their frames and the
    columns compared are columns of both frames. *)
Lemma compare_keys_total keys acc :
  (∀ key, key ∈ keys → is_Some (dict1 !! key) ∨ is_Some (dict2 !! key)) →
  (∀ key i, dict1 !! key = Some i → is_Some (df_rows df1 !! i)) →
  (∀ key j, dict2 !! key = Some j → is_Some (df_rows df2 !! j)) →
  (∀ col, col ∈ columns → col ∈ df_columns df1 ∧ col ∈ df_columns df2) →
  is_Some (loop keys acc).
Proof.
  intros Hkeys Hd1 Hd2 Hcols. revert acc.
  induction keys as [|k keys IH]; intros acc; simpl; [eauto|].
  assert (is_Some (step k acc)) as [mid ->]; [|simpl; apply IH; set_solver].
  unfold compare_key.
  destruct (dict1 !! k) as [i|] eqn:H1, (dict2 !! k) as [j|] eqn:H2.
  - destruct (Hd1 k i H1) as [r1 Hr1], (Hd2 k j H2) as [r2 Hr2].
    assert (iloc df1 i = Some (row_series (df_columns df1) r1)) as ->
      by (unfold iloc; by rewrite Hr1).
    assert (iloc df2 j = Some (row_series (df_columns df2) r2)) as ->
      by (unfold iloc; by rewrite Hr2).
    simpl.
    destruct (compare_columns_total (row_series (df_columns df1) r1)
                (row_series (df_columns df2) r2) columns ∅) as [m ->].
    { intros col [Hc1 Hc2]%Hcols.
      rewrite !row_series_lookup_in by done. split; eauto. }
    simpl. case_bool_decide; eauto.
  - destruct (Hd1 k i H1) as [r1 Hr1]. unfold iloc. rewrite Hr1. simpl. eauto.
  - destruct (Hd2 k j H2) as [r2 Hr2]. simpl. unfold iloc. rewrite Hr2. simpl. eauto.
  - destruct (Hkeys k) as [[? ?]|[? ?]]; [by left|congruence..].
Qed.
End reconcile_facts.

(** ** Enumerations of a set *)

Lemma elem_of_to_list order (s : gset string) x : x ∈ to_list order s ↔ x ∈ s.
Proof. rewrite (to_list_perm order s). apply elem_of_elements. Qed.

Lemma NoDup_to_list order (s : gset string) : NoDup (to_list order s).
Proof. rewrite (to_list_perm order s). apply NoDup_elements. Qed.

Lemma length_to_list order (s : gset string) : length (to_list order s) = size s.
Proof. by rewrite (to_list_perm order s). Qed.

Lemma list_to_set_to_list order (s : gset string) : list_to_set (to_list order s) = s.
Proof. apply set_eq. intros x. rewrite elem_of_list_to_set. apply elem_of_to_list. Qed.

(** ** The analysis of one sheet *)

Lemma elem_of_common_columns order df1 df2 col :
  col ∈ common_columns order df1 df2 ↔ col ∈ df_columns df1 ∧ col ∈ df_columns df2.
Proof.
  unfold common_columns, column_set.
  rewrite elem_of_to_list, elem_of_intersection, !elem_of_list_to_set. done.
Qed.

Lemma elem_of_all_keys df1 df2 key :
  key ∈ all_keys df1 df2
  ↔ is_Some (df1_dict df1 df2 !! key) ∨ is_Some (df2_dict df1 df2 !! key).
Proof. unfold all_keys. by rewrite elem_of_union, !elem_of_dom. Qed.

(** The analysis always returns.  Its four lists hold the keys of the two
    dictionaries, each once, and a key is in the list of its outcome. *)
Lemma analyze_differences_rows order df1 df2 :
  ∃ d, analyze_differences order df1 df2 = Some d
       ∧ classified_keys (rows d) ≡ₚ elements (all_keys df1 df2)
       ∧ ∀ o key,
           key ∈ filed (rows d) o
           ↔ key ∈ all_keys df1 df2
             ∧ outcome_of df1 df2 (df1_dict df1 df2) (df2_dict df1 df2)
                 (common_columns order df1 df2) key o.
Proof.
  unfold analyze_differences.
  destruct (compare_keys_total df1 df2 (available_identifiers df1 df2)
              (df1_dict df1 df2) (df2_dict df1 df2) (common_columns order df1 df2)
              (to_list order (all_keys df1 df2)) no_rows) as [found Hfound].
  - intros key Hkey%elem_of_to_list. by apply elem_of_all_keys.
  - intros key i (r & Hr & _)%key_dict_Some. eauto.
  - intros key j (r & Hr & _)%key_dict_Some. eauto.
  - intros col. apply elem_of_common_columns.
  - rewrite Hfound. simpl. eexists. split; [done|]. simpl.
    apply compare_keys_Some in Hfound as [Hperm Hfiled]. split.
    + rewrite Hperm. simpl. apply to_list_perm.
    + intros o key. rewrite Hfiled, elem_of_to_list.
      destruct o; simpl; rewrite elem_of_nil; naive_solver.
Qed.

Lemma cell_unchanged_refl val : ¬ cell_changed val val.
Proof. intros [[? ?]|[[? ?]|(_ & _ & ?)]]; congruence. Qed.

(** ** Summing per-sheet counts *)

Lemma foldl_add_sheet results acc :
  let totals := foldl add_sheet acc results in
  t_sheets_with_differences totals
    = t_sheets_with_differences acc + length (filter sheet_differs results)
  ∧ t_modifications totals = t_modifications acc + sum_list_with sheet_modified results
  ∧ t_missing_rows_file1 totals
    = t_missing_rows_file1 acc + sum_list_with sheet_only_left results
  ∧ t_missing_rows_file2 totals
    = t_missing_rows_file2 acc + sum_list_with sheet_only_right results.
Proof.
  revert acc. induction results as [|entry results IH]; intros acc; simpl.
  - split_and!; lia.
  - destruct (IH (add_sheet acc entry)) as (H1 & H2 & H3 & H4).
    rewrite H1, H2, H3, H4. clear IH H1 H2 H3 H4.
    unfold add_sheet at 1 2 3 4; simpl.
    fold (sheet_modified entry) (sheet_only_left entry) (sheet_only_right entry).
    split_and!; try lia.
    rewrite filter_cons. unfold sheet_differs at 2.
    destruct (decide _) as [Hd|Hd].
    + assert ((0 <? sheet_modified entry)%nat || (0 <? sheet_only_left entry)%nat
              || (0 <? sheet_only_right entry)%nat = true) as ->; [|simpl; lia].
      rewrite !orb_true_iff, !Nat.ltb_lt. lia.
    + assert ((0 <? sheet_modified entry)%nat || (0 <? sheet_only_left entry)%nat
              || (0 <? sheet_only_right entry)%nat = false) as ->; [|simpl; lia].
      rewrite !orb_false_iff, !Nat.ltb_ge. lia.
Qed.

Lemma sum_list_with_zero {A} (f : A → nat) (l : list A) :
  sum_list_with f l = 0 ↔ Forall (λ x, f x = 0) l.
Proof.
  induction l as [|x l IH]; simpl; [by split|].
  rewrite Forall_cons, <- IH. lia.
Qed.

Lemma elem_of_classified_keys found key :
  key ∈ classified_keys found ↔ ∃ o, key ∈ filed found o.
Proof.
  unfold classified_keys. rewrite !elem_of_app. split.
  - intros [?|[?|[?|?]]];
      [exists Identical|exists Modified|exists OnlyLeft|exists OnlyRight]; done.
  - intros [[] ?]; simpl in *; auto.
Qed.

Lemma analyze_differences_summary order df1 df2 d :
  analyze_differences order df1 df2 = Some d →
  sum_identical_rows (summary d) = length (identical_rows (rows d))
  ∧ sum_modified_rows (summary d) = length (modified_rows (rows d))
  ∧ sum_rows_only_in_file1 (summary d) = length (rows_only_in_file1 (rows d))
  ∧ sum_rows_only_in_file2 (summary d) = length (rows_only_in_file2 (rows d)).
Proof.
  unfold analyze_differences.
  destruct (compare_keys _ _ _ _ _ _ _ _) as [found|]; [|done].
  simpl. intros [= <-]. done.
Qed.

(** A key of both dictionaries is filed by what its two rows show. *)
Lemma key_of_both_filed order df1 df2 d key :
  analyze_differences order df1 df2 = Some d →
  is_Some (df1_dict df1 df2 !! key) →
  is_Some (df2_dict df1 df2 !! key) →
  (key ∈ keys_modified (rows d)
   ↔ key_changed df1 df2 (df1_dict df1 df2) (df2_dict df1 df2)
       (common_columns order df1 df2) key)
  ∧ (key ∈ keys_identical (rows d)
     ↔ key_unchanged df1 df2 (df1_dict df1 df2) (df2_dict df1 df2)
         (common_columns order df1 df2) key)
  ∧ (key ∈ keys_modified (rows d) ∨ key ∈ keys_identical (rows d))
  ∧ (key ∉ keys_only_in_file1 (rows d))
  ∧ (key ∉ keys_only_in_file2 (rows d)).
Proof.
  intros Hd' [i Hi] [j Hj].
  destruct (analyze_differences_rows order df1 df2) as (d0 & Hd & Hperm & Hfiled).
  assert (d0 = d) as -> by congruence.
  assert (key ∈ all_keys df1 df2) as Hkey by (apply elem_of_all_keys; eauto).
  pose proof (Hfiled Modified key) as HM. pose proof (Hfiled Identical key) as HI.
  pose proof (Hfiled OnlyLeft key) as HL. pose proof (Hfiled OnlyRight key) as HR.
  simpl in HM, HI, HL, HR.
  assert (key ∉ keys_only_in_file1 (rows d)) as HnL.
  { rewrite HL. intros [_ [_ Hnone]]. congruence. }
  assert (key ∉ keys_only_in_file2 (rows d)) as HnR.
  { rewrite HR. intros [_ [Hnone _]]. congruence. }
  split_and!; [naive_solver|naive_solver| |done|done].
  assert (key ∈ classified_keys (rows d)) as Hin
    by (by rewrite Hperm, elem_of_elements).
  unfold classified_keys in Hin. rewrite !elem_of_app in Hin. tauto.
Qed.

(** The keys of the two dictionaries are the composite keys of the rows
    of the two sheets. *)
Lemma elem_of_all_keys_rows df1 df2 key :
  key ∈ dom (df1_dict df1 df2) ∪ dom (df2_dict df1 df2)
  ↔ (∃ r, r ∈ df_rows df1
          ∧ create_composite_key (row_series (df_columns df1) r)
              (available_identifiers df1 df2) = key)
    ∨ (∃ r, r ∈ df_rows df2
            ∧ create_composite_key (row_series (df_columns df2) r)
                (available_identifiers df1 df2) = key).
Proof.
  unfold df1_dict, df2_dict.
  rewrite elem_of_union, !key_dict_dom, !elem_of_list_to_set.
  unfold composite_key_column. rewrite !list_elem_of_fmap. naive_solver.
Qed.

(** * Main results *)

(** C1. Whatever the two sheets, the analysis returns, and every composite
    key of the left or the right dictionary is filed in exactly one of the
    four lists identical / modified / only-in-file-1 / only-in-file-2: the
    lists together hold the keys of the two dictionaries, which are the
    composite keys of the rows of either sheet, and no others; no key occurs
    twice in them; and a key filed under two outcomes is filed under one. *)
Theorem reconciliation_partitions_keys order df1 df2 :
  ∃ d, analyze_differences order df1 df2 = Some d
       ∧ NoDup (classified_keys (rows d))
       ∧ (∀ key, key ∈ dom (df1_dict df1 df2) ∪ dom (df2_dict df1 df2)
                 ↔ key ∈ classified_keys (rows d))
       ∧ (∀ key, key ∈ classified_keys (rows d)
                 ↔ (∃ r, r ∈ df_rows df1
                         ∧ create_composite_key (row_series (df_columns df1) r)
                             (available_identifiers df1 df2) = key)
                   ∨ (∃ r, r ∈ df_rows df2
                           ∧ create_composite_key (row_series (df_columns df2) r)
                               (available_identifiers df1 df2) = key))
       ∧ (∀ key, key ∈ dom (df1_dict df1 df2) ∪ dom (df2_dict df1 df2) →
            ∃ o, key ∈ filed (rows d) o ∧ ∀ o', key ∈ filed (rows d) o' → o' = o)
       ∧ (∀ key o o', key ∈ filed (rows d) o → key ∈ filed (rows d) o' → o = o').
Proof.
  destruct (analyze_differences_rows order df1 df2) as (d & Hd & Hperm & Hfiled).
  exists d. split; [done|].
  assert (∀ key o o', key ∈ filed (rows d) o → key ∈ filed (rows d) o' → o = o')
    as Hone.
  { intros key o o' [_ Ho]%Hfiled [_ Ho']%Hfiled. by eapply outcome_unique. }
  assert (∀ key, key ∈ dom (df1_dict df1 df2) ∪ dom (df2_dict df1 df2)
                 ↔ key ∈ classified_keys (rows d)) as Hall.
  { intros key. rewrite Hperm, elem_of_elements. done. }
  split_and!; [|done| | |done].
  - rewrite Hperm. apply NoDup_elements.
  - intros key. rewrite <- Hall. apply elem_of_all_keys_rows.
  - intros key [o Ho]%Hall%elem_of_classified_keys. exists o. split; [done|].
    intros o' Ho'. by eapply Hone.
Qed.


(** C2. A key present in both dictionaries is filed as modified exactly
    when some common column of its two rows has changed under the null-aware
    rule, and as identical exactly when every common column matches; it is
    filed as one of the two and never as only-in-one-file. *)
Theorem modified_iff_some_column_changed order df1 df2 key :
  is_Some (df1_dict df1 df2 !! key) →
  is_Some (df2_dict df1 df2 !! key) →
  ∃ d, analyze_differences order df1 df2 = Some d
       ∧ (key ∈ keys_modified (rows d)
          ↔ key_changed df1 df2 (df1_dict df1 df2) (df2_dict df1 df2)
              (common_columns order df1 df2) key)
       ∧ (key ∈ keys_identical (rows d)
          ↔ key_unchanged df1 df2 (df1_dict df1 df2) (df2_dict df1 df2)
              (common_columns order df1 df2) key)
       ∧ (key ∈ keys_modified (rows d) ∨ key ∈ keys_identical (rows d))
       ∧ (key ∉ keys_only_in_file1 (rows d))
       ∧ (key ∉ keys_only_in_file2 (rows d)).
Proof.
  intros H1 H2.
  destruct (analyze_differences_rows order df1 df2) as (d & Hd & _).
  exists d. split; [done|]. by apply key_of_both_filed.
Qed.

Lemma modified_iff_some_column_changed_witness :
  ∃ d, analyze_differences elements_order sample_left sample_right = Some d
       ∧ ("A|2024-01-01|10:00" ∈ keys_modified (rows d)
          ↔ key_changed sample_left sample_right
              (df1_dict sample_left sample_right) (df2_dict sample_left sample_right)
              (common_columns elements_order sample_left sample_right)
              "A|2024-01-01|10:00")
       ∧ ("A|2024-01-01|10:00" ∈ keys_identical (rows d)
          ↔ key_unchanged sample_left sample_right
              (df1_dict sample_left sample_right) (df2_dict sample_left sample_right)
              (common_columns elements_order sample_left sample_right)
              "A|2024-01-01|10:00")
       ∧ ("A|2024-01-01|10:00" ∈ keys_modified (rows d)
          ∨ "A|2024-01-01|10:00" ∈ keys_identical (rows d))
       ∧ ("A|2024-01-01|10:00" ∉ keys_only_in_file1 (rows d))
       ∧ ("A|2024-01-01|10:00" ∉ keys_only_in_file2 (rows d)).
Proof.
  apply modified_iff_some_column_changed; exists 0; vm_compute; reflexivity.
Defined.

(** C8. The column statistics of a sheet: the columns unique to file 1 are
    the columns of file 1 less those of file 2, the columns unique to file 2
    the converse, the common columns the intersection; the three lists share
    no column and together hold the columns of either file.  The column
    differences of the analysis are the same two lists. *)
Theorem column_statistics_partition order df1 df2 :
  list_to_set (st_file1_unique_columns (sheet_statistics order df1 df2))
    = column_set df1 ∖ column_set df2
  ∧ list_to_set (st_file2_unique_columns (sheet_statistics order df1 df2))
    = column_set df2 ∖ column_set df1
  ∧ list_to_set (st_common_columns (sheet_statistics order df1 df2))
    = column_set df1 ∩ column_set df2
  ∧ NoDup (st_common_columns (sheet_statistics order df1 df2)
           ++ st_file1_unique_columns (sheet_statistics order df1 df2)
           ++ st_file2_unique_columns (sheet_statistics order df1 df2))
  ∧ (∀ col,
       col ∈ st_common_columns (sheet_statistics order df1 df2)
             ++ st_file1_unique_columns (sheet_statistics order df1 df2)
             ++ st_file2_unique_columns (sheet_statistics order df1 df2)
       ↔ col ∈ df_columns df1 ∨ col ∈ df_columns df2)
  ∧ ∃ d, analyze_differences order df1 df2 = Some d
         ∧ file1_unique_columns (column_differences d)
           = st_file1_unique_columns (sheet_statistics order df1 df2)
         ∧ file2_unique_columns (column_differences d)
           = st_file2_unique_columns (sheet_statistics order df1 df2)
         ∧ sum_common_columns (summary d)
           = length (st_common_columns (sheet_statistics order df1 df2)).
Proof.
  simpl. rewrite !list_to_set_to_list. split_and!; try done.
  - rewrite !NoDup_app. setoid_rewrite elem_of_app.
    setoid_rewrite elem_of_to_list.
    split_and!; try apply NoDup_to_list; set_solver.
  - intros col. rewrite !elem_of_app, !elem_of_to_list. unfold column_set.
    rewrite elem_of_intersection, !elem_of_difference, !elem_of_list_to_set.
    destruct (decide (col ∈ df_columns df1)), (decide (col ∈ df_columns df2)); tauto.
  - destruct (analyze_differences_rows order df1 df2) as (d & Hd & _).
    exists d. split; [done|]. revert Hd. unfold analyze_differences.
    destruct (compare_keys _ _ _ _ _ _ _ _) as [found|]; [|done].
    simpl. intros [= <-]. done.
Qed.

(** C9. The overall report: the verdict is "identical" exactly when every
    sheet compared has no modified row, no row only in file 1 and no row only
    in file 2; the three totals are the sums of the per-sheet counts; the
    sheets counted as having differences are those with one of the three
    counts non-zero. *)
Theorem summary_report_rollup comparison_results :
  (files_identical (generate_summary_report comparison_results) = true
   ↔ Forall (λ entry, sheet_modified entry = 0 ∧ sheet_only_left entry = 0
                      ∧ sheet_only_right entry = 0) comparison_results)
  ∧ total_modifications (generate_summary_report comparison_results)
    = sum_list_with sheet_modified comparison_results
  ∧ total_missing_rows_file1 (generate_summary_report comparison_results)
    = sum_list_with sheet_only_left comparison_results
  ∧ total_missing_rows_file2 (generate_summary_report comparison_results)
    = sum_list_with sheet_only_right comparison_results
  ∧ sheets_with_differences (generate_summary_report comparison_results)
    = length (filter sheet_differs comparison_results)
  ∧ total_sheets (generate_summary_report comparison_results)
    = length comparison_results.
Proof.
  unfold generate_summary_report. simpl.
  destruct (foldl_add_sheet comparison_results
              {| t_sheets_with_differences := 0; t_modifications := 0;
                 t_missing_rows_file1 := 0; t_missing_rows_file2 := 0 |})
    as (H1 & H2 & H3 & H4).
  simpl in H1, H2, H3, H4. rewrite H1, H2, H3, H4.
  split_and!; try done.
  rewrite !andb_true_iff, !Nat.eqb_eq, !sum_list_with_zero, !Forall_forall.
  naive_solver.
Qed.

(** C6. When two rows of a sheet, at positions [i < j], have one composite
    key, the dictionary maps no key to the earlier position [i]; it maps the
    key to a position not before [j] that holds this key, and to [j] itself
    when no later row has the key.  The dictionary is built without any
    failure: [key_dict] is a total function. *)
Theorem later_row_overwrites df identifiers (i j : nat) key :
  i < j →
  composite_key_column df identifiers !! i = Some key →
  composite_key_column df identifiers !! j = Some key →
  (∀ key', key_dict df identifiers !! key' ≠ Some i)
  ∧ (∃ l : nat, key_dict df identifiers !! key = Some l ∧ (j ≤ l)%nat
          ∧ composite_key_column df identifiers !! l = Some key)
  ∧ ((∀ l : nat, j < l → composite_key_column df identifiers !! l ≠ Some key) →
     key_dict df identifiers !! key = Some j).
Proof.
  intros Hlt Hi Hj. unfold key_dict. split_and!.
  - intros key' (j0 & Hj0 & Hkey' & Hlast)%index_from_Some. simpl in Hj0. subst j0.
    assert (key' = key) as -> by congruence. by apply (Hlast j).
  - destruct (last_occurrence (composite_key_column df identifiers) key)
      as (l & Hl & Hlast); [by eapply list_elem_of_lookup_2|].
    exists l. split_and!; [|apply Nat.nlt_ge; intros ?; by apply (Hlast j)|done].
    by rewrite (index_from_last 0 _ ∅ key l).
  - intros Hlast. by rewrite (index_from_last 0 _ ∅ key j).
Qed.

Lemma later_row_overwrites_witness :
  (∀ key', key_dict repeated_key UNIQUE_IDENTIFIERS !! key' ≠ Some 0)
  ∧ (∃ l : nat, key_dict repeated_key UNIQUE_IDENTIFIERS !! "A|2024-01-01|10:00" = Some l
          ∧ (1 ≤ l)%nat
          ∧ composite_key_column repeated_key UNIQUE_IDENTIFIERS !! l
            = Some "A|2024-01-01|10:00")
  ∧ ((∀ l : nat, 1 < l → composite_key_column repeated_key UNIQUE_IDENTIFIERS !! l
                   ≠ Some "A|2024-01-01|10:00") →
     key_dict repeated_key UNIQUE_IDENTIFIERS !! "A|2024-01-01|10:00" = Some 1).
Proof.
  apply (later_row_overwrites repeated_key UNIQUE_IDENTIFIERS 0 1);
    [lia|vm_compute; reflexivity..].
Defined.

(** The dictionary of a column that repeats one key has a single entry,
    at the last position. *)
Lemma index_from_constant idx keys d key :
  (∀ k, k ∈ keys → k = key) → keys ≠ [] →
  index_from idx keys d = <[key := idx + length keys - 1]> d.
Proof.
  revert idx d. induction keys as [|k keys IH]; intros idx d Hall Hne; [done|].
  simpl. assert (k = key) as -> by (apply Hall; by left).
  destruct keys as [|k' keys].
  - simpl. f_equal. lia.
  - rewrite IH; [|intros ? ?; apply Hall; by right|done].
    rewrite insert_insert_eq. f_equal. simpl. lia.
Qed.

Lemma key_dict_no_identifier df :
  key_dict df [] = match df_rows df with
                   | [] => ∅
                   | _ => {[ "" := length (df_rows df) - 1 ]}
                   end.
Proof.
  unfold key_dict, composite_key_column.
  destruct (df_rows df) as [|r rest] eqn:Hrows; [done|].
  rewrite index_from_constant with (key := "").
  - rewrite length_fmap. done.
  - intros k (r' & -> & _)%list_elem_of_fmap. done.
  - done.
Qed.

(** C10. When no configured identifier is a column of both sheets, no
    identifier is available and every row gets the empty composite key; each
    dictionary is then empty (a sheet without rows) or holds the one entry
    that maps the empty key to the last row; the analysis still returns, and
    files at most one key, the empty one. *)
Theorem no_identifier_available order df1 df2 :
  (∀ identifier, identifier ∈ UNIQUE_IDENTIFIERS → ¬ in_both df1 df2 identifier) →
  available_identifiers df1 df2 = []
  ∧ (∀ row, create_composite_key row (available_identifiers df1 df2) = "")
  ∧ df1_dict df1 df2 = match df_rows df1 with
                       | [] => ∅
                       | _ => {[ "" := length (df_rows df1) - 1 ]}
                       end
  ∧ df2_dict df1 df2 = match df_rows df2 with
                       | [] => ∅
                       | _ => {[ "" := length (df_rows df2) - 1 ]}
                       end
  ∧ ∃ d, analyze_differences order df1 df2 = Some d
         ∧ (length (classified_keys (rows d)) ≤ 1)%nat
         ∧ ∀ key, key ∈ classified_keys (rows d) → key = "".
Proof.
  intros Hnone.
  assert (available_identifiers df1 df2 = []) as Havail.
  { unfold available_identifiers, UNIQUE_IDENTIFIERS in *.
    rewrite !filter_cons, filter_nil.
    rewrite !decide_False; [done|apply Hnone; set_solver..]. }
  assert (df1_dict df1 df2 = match df_rows df1 with
                             | [] => ∅
                             | _ => {[ "" := length (df_rows df1) - 1 ]}
                             end) as Hd1.
  { unfold df1_dict. rewrite Havail. apply key_dict_no_identifier. }
  assert (df2_dict df1 df2 = match df_rows df2 with
                             | [] => ∅
                             | _ => {[ "" := length (df_rows df2) - 1 ]}
                             end) as Hd2.
  { unfold df2_dict. rewrite Havail. apply key_dict_no_identifier. }
  split_and!; [done|by rewrite Havail|done|done|].
  destruct (analyze_differences_rows order df1 df2) as (d & Hd & Hperm & _).
  exists d. split; [done|].
  assert (all_keys df1 df2 ⊆ {[ "" ]}) as Hsub.
  { unfold all_keys. rewrite Hd1, Hd2.
    destruct (df_rows df1), (df_rows df2);
      rewrite ?dom_empty_L, ?dom_singleton_L; set_solver. }
  split.
  - rewrite Hperm. change (size (all_keys df1 df2) ≤ 1)%nat.
    apply subseteq_size in Hsub. by rewrite size_singleton in Hsub.
  - intros key. rewrite Hperm, elem_of_elements. set_solver.
Qed.

Lemma no_identifier_available_witness :
  available_identifiers unkeyed sample_left = []
  ∧ (∀ row, create_composite_key row (available_identifiers unkeyed sample_left) = "")
  ∧ df1_dict unkeyed sample_left = match df_rows unkeyed with
                                   | [] => ∅
                                   | _ => {[ "" := length (df_rows unkeyed) - 1 ]}
                                   end
  ∧ df2_dict unkeyed sample_left = match df_rows sample_left with
                                   | [] => ∅
                                   | _ => {[ "" := length (df_rows sample_left) - 1 ]}
                                   end
  ∧ ∃ d, analyze_differences elements_order unkeyed sample_left = Some d
         ∧ (length (classified_keys (rows d)) ≤ 1)%nat
         ∧ ∀ key, key ∈ classified_keys (rows d) → key = "".
Proof.
  apply no_identifier_available.
  intros identifier Hin [Hleft _]. apply list_elem_of_singleton in Hleft.
  subst identifier. vm_compute in Hin.
  repeat (apply elem_of_cons in Hin as [Hin|Hin]; [discriminate|]).
  by apply elem_of_nil in Hin.
Defined.

(** ** The key builder *)

Lemma fmap_eq_pointwise {A B} (f g : A → B) (l : list A) :
  f <$> l = g <$> l ↔ ∀ x, x ∈ l → f x = g x.
Proof.
  induction l as [|a l IH]; simpl.
  - split; [by intros _ ? ?%elem_of_nil|done].
  - split.
    + intros [= Ha Hl] x [->|Hx]%elem_of_cons; [done|]. by apply IH.
    + intros H. f_equal; [apply H; by left|]. apply IH. intros x Hx. apply H. by right.
Qed.

(** Rows with the same tokens have the same key. *)
Lemma same_tokens_same_key row1 row2 cols :
  (∀ col, col ∈ cols → identifier_token row1 col = identifier_token row2 col) →
  create_composite_key row1 cols = create_composite_key row2 cols.
Proof. intros H. unfold create_composite_key. f_equal. by apply fmap_eq_pointwise. Qed.

(** A row without the field and a row with the field empty get different
    keys, when the list asks for the field and the rows have the same tokens
    in the other columns. *)
Lemma missing_key_differs_from_null_key row1 row2 cols field :
  field ∈ cols →
  identifier_token row1 field = "MISSING" →
  identifier_token row2 field = "NULL" →
  (∀ col, col ∈ cols → col ≠ field →
          identifier_token row1 col = identifier_token row2 col) →
  create_composite_key row1 cols ≠ create_composite_key row2 cols.
Proof.
  intros Hin Hmiss Hnull. unfold create_composite_key.
  induction cols as [|c rest IH]; intros Hsame; [by apply elem_of_nil in Hin|].
  destruct (decide (c = field)) as [->|Hne].
  - rewrite !fmap_cons, Hmiss, Hnull.
    destruct rest as [|c' rest]; simpl; discriminate.
  - apply elem_of_cons in Hin as [->|Hin]; [done|].
    destruct rest as [|c' rest]; [by apply elem_of_nil in Hin|].
    rewrite !fmap_cons, !join_cons, <- !fmap_cons.
    rewrite (Hsame c) by (done || by left).
    intros Heq%append_cancel_l%append_cancel_l. revert Heq. apply IH; [done|].
    intros col Hcol. apply Hsame. by right.
Qed.




(** C5 fails as stated: a cell that holds the text NULL between blanks is
    a real value and gets the token, and the key, of an empty cell; a cell
    that holds the text MISSING gets those of an absent field. *)
Lemma sentinel_equals_a_real_value :
  isna (VStr " NULL ") = false
  ∧ identifier_token null_text_row "Program Date"
    = identifier_token null_row "Program Date"
  ∧ create_composite_key null_text_row ["Program Date"]
    = create_composite_key null_row ["Program Date"]
  ∧ isna (VStr "MISSING") = false
  ∧ identifier_token missing_text_row "Program Date"
    = identifier_token ∅ "Program Date"
  ∧ create_composite_key missing_text_row ["Program Date"]
    = create_composite_key ∅ ["Program Date"].
Proof. vm_compute. done. Qed.

(** C5, amended. For an identifier list that holds the field: a row
    without the field and a row with the field present and null, with the
    same tokens in the other identifier columns, get different composite
    keys, the first through the token MISSING and the second through the
    token NULL. *)
Theorem missing_and_null_give_different_keys row1 row2 cols field value :
  field ∈ cols →
  row1 !! field = None →
  row2 !! field = Some value →
  isna value = true →
  (∀ col, col ∈ cols → col ≠ field →
          identifier_token row1 col = identifier_token row2 col) →
  identifier_token row1 field = "MISSING"
  ∧ identifier_token row2 field = "NULL"
  ∧ create_composite_key row1 cols ≠ create_composite_key row2 cols.
Proof.
  intros Hin Hnone Hsome Hna Hsame.
  assert (identifier_token row1 field = "MISSING") as Hmiss
    by (unfold identifier_token; by rewrite Hnone).
  assert (identifier_token row2 field = "NULL") as Hnull
    by (unfold identifier_token; by rewrite Hsome, Hna).
  split_and!; [done..|]. by eapply missing_key_differs_from_null_key.
Qed.

Lemma missing_and_null_give_different_keys_witness :
  identifier_token undated_row "Program Date" = "MISSING"
  ∧ identifier_token null_dated_row "Program Date" = "NULL"
  ∧ create_composite_key undated_row UNIQUE_IDENTIFIERS
    ≠ create_composite_key null_dated_row UNIQUE_IDENTIFIERS.
Proof.
  apply (missing_and_null_give_different_keys undated_row null_dated_row
           UNIQUE_IDENTIFIERS "Program Date" VNull).
  - vm_compute. apply list_elem_of_In. simpl. tauto.
  - vm_compute. reflexivity.
  - vm_compute. reflexivity.
  - reflexivity.
  - intros col Hcol Hne. vm_compute in Hcol.
    repeat (apply elem_of_cons in Hcol as [->|Hcol];
            [first [vm_compute; reflexivity|by destruct Hne]|]).
    by apply elem_of_nil in Hcol.
Defined.

(** ** Identifier columns of a pair of sheets *)

Lemma elem_of_available_identifiers df1 df2 col :
  col ∈ available_identifiers df1 df2
  ↔ in_both df1 df2 col ∧ col ∈ UNIQUE_IDENTIFIERS.
Proof. unfold available_identifiers. by rewrite list_elem_of_filter. Qed.

Lemma elem_of_missing_identifiers df1 df2 col :
  col ∈ missing_identifiers df1 df2
  ↔ ¬ in_both df1 df2 col ∧ col ∈ UNIQUE_IDENTIFIERS.
Proof. unfold missing_identifiers. by rewrite list_elem_of_filter. Qed.

(** The key of a row of the sheet is a key of its dictionary. *)
Lemma key_dict_of_row df identifiers i row :
  iloc df i = Some row →
  is_Some (key_dict df identifiers !! create_composite_key row identifiers).
Proof.
  intros (r & Hr & ->)%iloc_Some.
  apply elem_of_dom. rewrite key_dict_dom, elem_of_list_to_set.
  unfold composite_key_column. apply list_elem_of_fmap. exists r.
  split; [done|]. by eapply list_elem_of_lookup_2.
Qed.

(** C3 fails as stated: the configured list holds [Program Date], the left
    sheet has no such column and the right sheet has it empty, and the two
    rows are matched: one identical row, no row only in one file. *)
Lemma absent_identifier_rows_still_match :
  "Program Date" ∈ UNIQUE_IDENTIFIERS
  ∧ ("Program Date" ∉ df_columns undated_left)
  ∧ (row ← iloc null_dated_right 0; row !! "Program Date") = Some VNull
  ∧ ∃ d, analyze_differences elements_order undated_left null_dated_right = Some d
         ∧ rows_only_in_file1 (rows d) = []
         ∧ rows_only_in_file2 (rows d) = []
         ∧ modified_rows (rows d) = []
         ∧ keys_identical (rows d) = ["A|10:00"].
Proof.
  split_and!.
  - apply list_elem_of_In. simpl. tauto.
  - intros H%list_elem_of_In. simpl in H. intuition discriminate.
  - vm_compute. reflexivity.
  - eexists. split; [vm_compute; reflexivity|]. vm_compute. done.
Qed.

(** C3, amended. An identifier of the configured list that is not a
    column of both sheets is left out of the key: it is listed as missing,
    not as available, and every row of either sheet has a cell for each
    available identifier, so no key of the analysis holds the token of an
    absent field.  The analysis returns, reports the identifier as missing,
    and matches a left row with a right row whenever the two have the same
    tokens in the available identifiers: their keys are one key, filed as
    identical or modified and in neither only-in-one-file list. *)
Theorem absent_identifier_left_out_of_key order df1 df2 field :
  field ∈ UNIQUE_IDENTIFIERS →
  ¬ in_both df1 df2 field →
  (field ∉ available_identifiers df1 df2)
  ∧ field ∈ missing_identifiers df1 df2
  ∧ (∀ i row col, iloc df1 i = Some row → col ∈ available_identifiers df1 df2 →
                  is_Some (row !! col))
  ∧ (∀ j row col, iloc df2 j = Some row → col ∈ available_identifiers df1 df2 →
                  is_Some (row !! col))
  ∧ ∃ d, analyze_differences order df1 df2 = Some d
         ∧ field ∈ sum_missing_identifiers (summary d)
         ∧ ∀ i j row1 row2,
             iloc df1 i = Some row1 →
             iloc df2 j = Some row2 →
             (∀ col, col ∈ available_identifiers df1 df2 →
                     identifier_token row1 col = identifier_token row2 col) →
             create_composite_key row1 (available_identifiers df1 df2)
             = create_composite_key row2 (available_identifiers df1 df2)
             ∧ (create_composite_key row1 (available_identifiers df1 df2)
                  ∈ keys_identical (rows d)
                ∨ create_composite_key row1 (available_identifiers df1 df2)
                    ∈ keys_modified (rows d))
             ∧ (create_composite_key row1 (available_identifiers df1 df2)
                  ∉ keys_only_in_file1 (rows d))
             ∧ (create_composite_key row1 (available_identifiers df1 df2)
                  ∉ keys_only_in_file2 (rows d)).
Proof.
  intros Hfield Habsent. split_and!.
  - by intros [? _]%elem_of_available_identifiers.
  - by apply elem_of_missing_identifiers.
  - intros i row col (r & _ & ->)%iloc_Some [[Hcol _] _]%elem_of_available_identifiers.
    rewrite row_series_lookup_in by done. eauto.
  - intros j row col (r & _ & ->)%iloc_Some [[_ Hcol] _]%elem_of_available_identifiers.
    rewrite row_series_lookup_in by done. eauto.
  - destruct (analyze_differences_rows order df1 df2) as (d & Hd & _).
    exists d. split_and!; [done| |].
    + assert (sum_missing_identifiers (summary d) = missing_identifiers df1 df2) as ->.
      { revert Hd. unfold analyze_differences.
        destruct (compare_keys _ _ _ _ _ _ _ _) as [found|]; [|done].
        simpl. by intros [= <-]. }
      by apply elem_of_missing_identifiers.
    + intros i j row1 row2 Hrow1 Hrow2 Hsame.
      pose proof (same_tokens_same_key row1 row2 _ Hsame) as Hkey.
      split; [done|].
      destruct (key_of_both_filed order df1 df2 d
                  (create_composite_key row1 (available_identifiers df1 df2)) Hd)
        as (_ & _ & Hfiled & HnL & HnR).
      * by eapply key_dict_of_row.
      * rewrite Hkey. by eapply key_dict_of_row.
      * split_and!; [tauto|done..].
Qed.

Lemma absent_identifier_left_out_of_key_witness :
  ("Program Date" ∉ available_identifiers undated_left null_dated_right)
  ∧ "Program Date" ∈ missing_identifiers undated_left null_dated_right
  ∧ (∀ i row col,
       iloc undated_left i = Some row →
       col ∈ available_identifiers undated_left null_dated_right →
       is_Some (row !! col))
  ∧ (∀ j row col,
       iloc null_dated_right j = Some row →
       col ∈ available_identifiers undated_left null_dated_right →
       is_Some (row !! col))
  ∧ ∃ d, analyze_differences elements_order undated_left null_dated_right = Some d
         ∧ "Program Date" ∈ sum_missing_identifiers (summary d)
         ∧ ∀ i j row1 row2,
             iloc undated_left i = Some row1 →
             iloc null_dated_right j = Some row2 →
             (∀ col, col ∈ available_identifiers undated_left null_dated_right →
                     identifier_token row1 col = identifier_token row2 col) →
             create_composite_key row1
               (available_identifiers undated_left null_dated_right)
             = create_composite_key row2
                 (available_identifiers undated_left null_dated_right)
             ∧ (create_composite_key row1
                  (available_identifiers undated_left null_dated_right)
                  ∈ keys_identical (rows d)
                ∨ create_composite_key row1
                    (available_identifiers undated_left null_dated_right)
                    ∈ keys_modified (rows d))
             ∧ (create_composite_key row1
                  (available_identifiers undated_left null_dated_right)
                  ∉ keys_only_in_file1 (rows d))
             ∧ (create_composite_key row1
                  (available_identifiers undated_left null_dated_right)
                  ∉ keys_only_in_file2 (rows d)).
Proof.
  apply absent_identifier_left_out_of_key.
  - apply list_elem_of_In. simpl. tauto.
  - intros [Hleft%list_elem_of_In _]. simpl in Hleft. intuition discriminate.
Defined.

(** * Further properties of the code *)

(** ** What the entries of the four lists record *)

Lemma cell_changed_dec val1 val2 : cell_changed val1 val2 ∨ ¬ cell_changed val1 val2.
Proof.
  rewrite cell_changed_iff.
  destruct (isna val1 && isna val2), (values_differ val1 val2); naive_solver.
Qed.

(** The dictionary of changes after the loop over the columns: what it
    holds came with it or is a changed column with its two cells, and every
    changed column is in it with its two cells. *)
Lemma compare_columns_lookup row1 row2 cols m m' :
  compare_columns row1 row2 cols m = Some m' →
  (∀ col val1 val2,
     m' !! col = Some (val1, val2) →
     m !! col = Some (val1, val2)
     ∨ (col ∈ cols ∧ row1 !! col = Some val1 ∧ row2 !! col = Some val2
        ∧ cell_changed val1 val2))
  ∧ (∀ col val1 val2,
       m !! col = Some (val1, val2) ∨ col ∈ cols →
       row1 !! col = Some val1 → row2 !! col = Some val2 →
       cell_changed val1 val2 →
       m' !! col = Some (val1, val2)).
Proof.
  revert m. induction cols as [|c rest IH]; intros m; simpl.
  - intros [= <-]. split; [auto|]. intros col v1 v2 [?|?%elem_of_nil]; done.
  - destruct (row1 !! c) as [w1|] eqn:H1; [|done].
    destruct (row2 !! c) as [w2|] eqn:H2; [|done]. simpl.
    pose proof (cell_changed_iff w1 w2) as Hch.
    assert (∀ m0, m0 = m ∨ (m0 = <[c := (w1, w2)]> m ∧ cell_changed w1 w2) →
              ¬ cell_changed w1 w2 ∨ m0 = <[c := (w1, w2)]> m →
              compare_columns row1 row2 rest m0 = Some m' →
              (∀ col val1 val2,
                 m' !! col = Some (val1, val2) →
                 m !! col = Some (val1, val2)
                 ∨ (col ∈ c :: rest ∧ row1 !! col = Some val1
                    ∧ row2 !! col = Some val2 ∧ cell_changed val1 val2))
              ∧ (∀ col val1 val2,
                   m !! col = Some (val1, val2) ∨ col ∈ c :: rest →
                   row1 !! col = Some val1 → row2 !! col = Some val2 →
                   cell_changed val1 val2 →
                   m' !! col = Some (val1, val2))) as Hstep.
    { intros m0 Hm0 Hm0' [Hfrom Hinto]%IH. split.
      - intros col v1 v2 [Hold|(Hin & ? & ? & ?)]%Hfrom.
        + destruct Hm0 as [->|[-> Hc]]; [by left|].
          destruct (decide (c = col)) as [->|Hne].
          * rewrite lookup_insert_eq in Hold. injection Hold as <- <-.
            right. split_and!; [by left|done..].
          * rewrite lookup_insert_ne in Hold by done. by left.
        + right. split_and!; [by right|done..].
      - intros col v1 v2 Hsrc Hv1 Hv2 Hc. apply Hinto; try done.
        destruct (decide (c = col)) as [->|Hne].
        + assert (w1 = v1) as -> by congruence. assert (w2 = v2) as -> by congruence.
          destruct Hm0' as [?| ->]; [done|]. left. by rewrite lookup_insert_eq.
        + destruct Hsrc as [Hold|[->|Hin]%elem_of_cons]; [|done|by right].
          left. destruct Hm0 as [->|[-> _]]; [done|]. by rewrite lookup_insert_ne. }
    destruct (isna w1 && isna w2) eqn:Hboth.
    + apply Hstep; [by left|left; rewrite Hch; naive_solver].
    + destruct (values_differ w1 w2) eqn:Hdiff.
      * apply Hstep; [right; split; [done|by apply Hch]|by right].
      * apply Hstep; [by left|left; rewrite Hch; naive_solver].
Qed.

Section entries.
Context (df1 df2 : DataFrame).
Context (available : list string) (dict1 dict2 : gmap string nat).
Context (columns : list string).

Local Abbreviation step := (compare_key df1 df2 available dict1 dict2 columns).
Local Abbreviation loop := (compare_keys df1 df2 available dict1 dict2 columns).

Local Abbreviation entries_ok acc :=
  (Forall (modified_entry_ok df1 df2 available dict1 dict2 columns) (modified_rows acc)
   ∧ Forall (identical_entry_ok df1 df2 available dict1 dict2 columns)
       (identical_rows acc)
   ∧ Forall (unique_entry_ok df1 available dict1 dict2) (rows_only_in_file1 acc)
   ∧ Forall (unique_entry_ok df2 available dict2 dict1) (rows_only_in_file2 acc)).

Lemma compare_key_entries key acc acc' :
  step key acc = Some acc' → entries_ok acc → entries_ok acc'.
Proof.
  unfold compare_key. intros Hstep (HM & HI & HL & HR).
  destruct (dict1 !! key) as [i|] eqn:H1, (dict2 !! key) as [j|] eqn:H2.
  - destruct (iloc df1 i) as [row1|] eqn:Hr1; [|done].
    destruct (iloc df2 j) as [row2|] eqn:Hr2; [|done]. simpl in Hstep.
    destruct (compare_columns row1 row2 columns ∅) as [m|] eqn:Hm; [|done].
    simpl in Hstep.
    pose proof (compare_columns_Some _ _ _ _ _ Hm) as [Hread Hempty].
    pose proof (compare_columns_lookup _ _ _ _ _ Hm) as [Hfrom Hinto].
    case_bool_decide as Hne; injection Hstep as <-; simpl; split_and!; try done.
    + apply Forall_app. split; [done|]. apply Forall_singleton.
      exists row1, row2. simpl. split_and!; try done.
      intros col v1 v2. split.
      * intros [Hold|?]%Hfrom; [by rewrite lookup_empty in Hold|done].
      * intros (Hin & Hv1 & Hv2 & Hc). apply Hinto; auto.
    + apply Forall_app. split; [done|]. apply Forall_singleton.
      exists row1, row2. simpl. split_and!; try done.
      apply rows_agree_iff; [done|].
      destruct Hempty as [(_ & _ & ?)|[? _]]; [done|]. by destruct Hne.
  - destruct (iloc df1 i) as [row1|] eqn:Hr1; [|done]. simpl in Hstep.
    injection Hstep as <-. simpl. split_and!; try done.
    apply Forall_app. split; [done|]. by apply Forall_singleton.
  - simpl in Hstep. destruct (iloc df2 j) as [row2|] eqn:Hr2; [|done].
    simpl in Hstep. injection Hstep as <-. simpl. split_and!; try done.
    apply Forall_app. split; [done|]. by apply Forall_singleton.
  - done.
Qed.

Lemma compare_keys_entries keys acc acc' :
  loop keys acc = Some acc' → entries_ok acc → entries_ok acc'.
Proof.
  revert acc. induction keys as [|k keys IH]; intros acc; simpl.
  - by intros [= <-].
  - destruct (step k acc) as [mid|] eqn:Hstep; [|done]. simpl.
    intros Hloop Hacc. apply (IH mid Hloop). by eapply compare_key_entries.
Qed.
End entries.

Lemma analyze_differences_entries order df1 df2 d :
  analyze_differences order df1 df2 = Some d →
  Forall (modified_entry_ok df1 df2 (available_identifiers df1 df2)
            (df1_dict df1 df2) (df2_dict df1 df2) (common_columns order df1 df2))
    (modified_rows (rows d))
  ∧ Forall (identical_entry_ok df1 df2 (available_identifiers df1 df2)
              (df1_dict df1 df2) (df2_dict df1 df2) (common_columns order df1 df2))
      (identical_rows (rows d))
  ∧ Forall (unique_entry_ok df1 (available_identifiers df1 df2)
              (df1_dict df1 df2) (df2_dict df1 df2))
      (rows_only_in_file1 (rows d))
  ∧ Forall (unique_entry_ok df2 (available_identifiers df1 df2)
              (df2_dict df1 df2) (df1_dict df1 df2))
      (rows_only_in_file2 (rows d)).
Proof.
  unfold analyze_differences.
  destruct (compare_keys _ _ _ _ _ _ _ _) as [found|] eqn:Hloop; [|done].
  simpl. intros [= <-]. simpl.
  apply (compare_keys_entries _ _ _ _ _ _ _ _ _ Hloop).
  unfold no_rows; simpl. split_and!; apply Forall_nil_2.
Qed.

(** The analysis has one result, with its keys filed once each. *)
Lemma analyze_differences_keys order df1 df2 d :
  analyze_differences order df1 df2 = Some d →
  NoDup (classified_keys (rows d))
  ∧ (∀ key, key ∈ classified_keys (rows d) ↔ key ∈ all_keys df1 df2)
  ∧ ∀ o key,
      key ∈ filed (rows d) o
      ↔ key ∈ all_keys df1 df2
        ∧ outcome_of df1 df2 (df1_dict df1 df2) (df2_dict df1 df2)
            (common_columns order df1 df2) key o.
Proof.
  intros Hd.
  destruct (analyze_differences_rows order df1 df2) as (d0 & Hd0 & Hperm & Hfiled).
  assert (d0 = d) as -> by congruence. split_and!; [| |done].
  - rewrite Hperm. apply NoDup_elements.
  - intros key. by rewrite Hperm, elem_of_elements.
Qed.

(** X1. Every entry of [modified_rows] carries the positions the two
    dictionaries give for its key, rows that both have this key, the
    identifier values of the left row, and a non-empty dictionary of changes
    that holds exactly the common columns whose cells changed, each with the
    two raw cells. *)
Theorem modified_entry_contents order df1 df2 :
  ∃ d, analyze_differences order df1 df2 = Some d
       ∧ ∀ entry, entry ∈ modified_rows (rows d) →
           ∃ row1 row2,
             df1_dict df1 df2 !! mr_composite_key entry = Some (mr_file1_index entry)
             ∧ df2_dict df1 df2 !! mr_composite_key entry = Some (mr_file2_index entry)
             ∧ iloc df1 (mr_file1_index entry) = Some row1
             ∧ iloc df2 (mr_file2_index entry) = Some row2
             ∧ create_composite_key row1 (available_identifiers df1 df2)
               = mr_composite_key entry
             ∧ create_composite_key row2 (available_identifiers df1 df2)
               = mr_composite_key entry
             ∧ mr_identifier_values entry
               = extract_identifier_values row1 (available_identifiers df1 df2)
             ∧ mr_modified_columns entry ≠ ∅
             ∧ ∀ col val1 val2,
                 mr_modified_columns entry !! col = Some (val1, val2)
                 ↔ col ∈ common_columns order df1 df2
                   ∧ row1 !! col = Some val1 ∧ row2 !! col = Some val2
                   ∧ cell_changed val1 val2.
Proof.
  destruct (analyze_differences_rows order df1 df2) as (d & Hd & _).
  exists d. split; [done|].
  destruct (analyze_differences_entries _ _ _ _ Hd) as (HM & _).
  intros entry Hentry. rewrite Forall_forall in HM.
  destruct (HM entry Hentry) as (row1 & row2 & H1 & H2 & Hr1 & Hr2 & Hids & Hne & Hcols).
  exists row1, row2. split_and!; try done.
  - destruct (key_dict_iloc _ _ _ _ H1) as (r & Hr & <-). congruence.
  - destruct (key_dict_iloc _ _ _ _ H2) as (r & Hr & <-). congruence.
Qed.

(** X2. Every entry of [identical_rows] carries the positions the two
    dictionaries give for its key, rows that both have this key and that
    match on every common column, and the identifier values of the left
    row. *)
Theorem identical_entry_contents order df1 df2 :
  ∃ d, analyze_differences order df1 df2 = Some d
       ∧ ∀ entry, entry ∈ identical_rows (rows d) →
           ∃ row1 row2,
             df1_dict df1 df2 !! ir_composite_key entry = Some (ir_file1_index entry)
             ∧ df2_dict df1 df2 !! ir_composite_key entry = Some (ir_file2_index entry)
             ∧ iloc df1 (ir_file1_index entry) = Some row1
             ∧ iloc df2 (ir_file2_index entry) = Some row2
             ∧ create_composite_key row1 (available_identifiers df1 df2)
               = ir_composite_key entry
             ∧ create_composite_key row2 (available_identifiers df1 df2)
               = ir_composite_key entry
             ∧ ir_identifier_values entry
               = extract_identifier_values row1 (available_identifiers df1 df2)
             ∧ rows_agree (common_columns order df1 df2) row1 row2.
Proof.
  destruct (analyze_differences_rows order df1 df2) as (d & Hd & _).
  exists d. split; [done|].
  destruct (analyze_differences_entries _ _ _ _ Hd) as (_ & HI & _).
  intros entry Hentry. rewrite Forall_forall in HI.
  destruct (HI entry Hentry) as (row1 & row2 & H1 & H2 & Hr1 & Hr2 & Hids & Hagree).
  exists row1, row2. split_and!; try done.
  - destruct (key_dict_iloc _ _ _ _ H1) as (r & Hr & <-). congruence.
  - destruct (key_dict_iloc _ _ _ _ H2) as (r & Hr & <-). congruence.
Qed.

(** X3. Every entry of [rows_only_in_file1] carries a key that the
    dictionary of file 2 does not have, the position the dictionary of
    file 1 gives for it, and as its data the whole row of file 1 at that
    position, a row with this key; likewise, with the files exchanged, for
    [rows_only_in_file2]. *)
Theorem only_entry_contents order df1 df2 :
  ∃ d, analyze_differences order df1 df2 = Some d
       ∧ (∀ entry, entry ∈ rows_only_in_file1 (rows d) →
            df1_dict df1 df2 !! ur_composite_key entry = Some (ur_index entry)
            ∧ df2_dict df1 df2 !! ur_composite_key entry = None
            ∧ iloc df1 (ur_index entry) = Some (ur_data entry)
            ∧ create_composite_key (ur_data entry) (available_identifiers df1 df2)
              = ur_composite_key entry
            ∧ ur_identifier_values entry
              = extract_identifier_values (ur_data entry)
                  (available_identifiers df1 df2))
       ∧ (∀ entry, entry ∈ rows_only_in_file2 (rows d) →
            df2_dict df1 df2 !! ur_composite_key entry = Some (ur_index entry)
            ∧ df1_dict df1 df2 !! ur_composite_key entry = None
            ∧ iloc df2 (ur_index entry) = Some (ur_data entry)
            ∧ create_composite_key (ur_data entry) (available_identifiers df1 df2)
              = ur_composite_key entry
            ∧ ur_identifier_values entry
              = extract_identifier_values (ur_data entry)
                  (available_identifiers df1 df2)).
Proof.
  destruct (analyze_differences_rows order df1 df2) as (d & Hd & _).
  exists d. split; [done|].
  destruct (analyze_differences_entries _ _ _ _ Hd) as (_ & _ & HL & HR).
  rewrite Forall_forall in HL. rewrite Forall_forall in HR.
  split; intros entry Hentry.
  - destruct (HL entry Hentry) as (H1 & H2 & Hr & Hids). split_and!; try done.
    destruct (key_dict_iloc _ _ _ _ H1) as (r & Hr' & <-). congruence.
  - destruct (HR entry Hentry) as (H1 & H2 & Hr & Hids). split_and!; try done.
    destruct (key_dict_iloc _ _ _ _ H1) as (r & Hr' & <-). congruence.
Qed.

(** ** Counting the keys *)

Lemma size_list_to_set_le (l : list string) :
  (size (list_to_set (C := gset string) l) ≤ length l)%nat.
Proof.
  induction l as [|x l IH].
  - rewrite list_to_set_nil, size_empty. simpl. lia.
  - rewrite list_to_set_cons, size_union_alt, size_singleton. simpl.
    pose proof (subseteq_size (list_to_set (C := gset string) l ∖ {[x]})
                  (list_to_set l)) as Hle.
    assert (list_to_set (C := gset string) l ∖ {[x]} ⊆ list_to_set l) as Hsub
      by set_solver.
    specialize (Hle Hsub). lia.
Qed.

Lemma key_dict_size df identifiers :
  size (key_dict df identifiers)
  = size (list_to_set (C := gset string) (composite_key_column df identifiers)).
Proof. by rewrite <- size_dom, key_dict_dom. Qed.

Lemma NoDup_filed found o : NoDup (classified_keys found) → NoDup (filed found o).
Proof.
  unfold classified_keys. rewrite !NoDup_app.
  intros (HI & _ & HM & _ & HL & _ & HR). by destruct o.
Qed.

(** Keys filed under different outcomes are different keys. *)
Lemma filed_disjoint found o o' key :
  NoDup (classified_keys found) → o ≠ o' →
  key ∈ filed found o → key ∉ filed found o'.
Proof.
  unfold classified_keys. rewrite !NoDup_app.
  intros (_ & HIx & _ & HMx & _ & HLx & _) Hne Hin Hin'.
  specialize (HIx key). specialize (HMx key). specialize (HLx key).
  rewrite !elem_of_app in HIx. rewrite elem_of_app in HMx.
  destruct o, o'; simpl in *; try done; tauto.
Qed.

(** The counts of the summary against the sizes of the dictionaries. *)
Lemma analysis_counts order df1 df2 d :
  analyze_differences order df1 df2 = Some d →
  sum_identical_rows (summary d) + sum_modified_rows (summary d)
  + sum_rows_only_in_file1 (summary d)
  = size (df1_dict df1 df2)
  ∧ sum_identical_rows (summary d) + sum_modified_rows (summary d)
    + sum_rows_only_in_file2 (summary d)
    = size (df2_dict df1 df2)
  ∧ (size (df1_dict df1 df2) ≤ sum_total_rows_file1 (summary d))%nat
  ∧ (size (df2_dict df1 df2) ≤ sum_total_rows_file2 (summary d))%nat
  ∧ sum_identical_rows (summary d) + sum_modified_rows (summary d)
    + sum_rows_only_in_file1 (summary d) + sum_rows_only_in_file2 (summary d)
    = size (all_keys df1 df2).
Proof.
  intros Hd.
  destruct (analyze_differences_rows order df1 df2) as (d0 & Hd0 & Hperm & _).
  assert (d0 = d) as -> by congruence. clear Hd0.
  destruct (analyze_differences_keys _ _ _ _ Hd) as (Hnodup & Hall & Hfiled).
  destruct (analyze_differences_summary _ _ _ _ Hd) as (-> & -> & -> & ->).
  assert (sum_total_rows_file1 (summary d) = length (df_rows df1)
          ∧ sum_total_rows_file2 (summary d) = length (df_rows df2)) as [-> ->].
  { revert Hd. unfold analyze_differences.
    destruct (compare_keys _ _ _ _ _ _ _ _) as [found|]; [|done].
    simpl. by intros [= <-]. }
  pose proof (NoDup_filed _ Identical Hnodup) as NI.
  pose proof (NoDup_filed _ Modified Hnodup) as NM.
  pose proof (NoDup_filed _ OnlyLeft Hnodup) as NL.
  pose proof (NoDup_filed _ OnlyRight Hnodup) as NR.
  simpl in NI, NM, NL, NR.
  assert (∀ o o' key, o ≠ o' → key ∈ filed (rows d) o → key ∉ filed (rows d) o')
    as Hdisj by (intros; by eapply filed_disjoint).
  assert (keys_identical (rows d) ++ keys_modified (rows d)
          ++ keys_only_in_file1 (rows d) ≡ₚ elements (dom (df1_dict df1 df2))) as P1.
  { apply NoDup_Permutation; [|apply NoDup_elements|].
    - rewrite !NoDup_app. split_and!; try done.
      + intros key HkI [HkM|HkL]%elem_of_app.
        * by apply (Hdisj Identical Modified key).
        * by apply (Hdisj Identical OnlyLeft key).
      + intros key HkM HkL. by apply (Hdisj Modified OnlyLeft key).
    - intros key. rewrite elem_of_elements, elem_of_dom, !elem_of_app. split.
      + intros [Hk|[Hk|Hk]].
        * apply (Hfiled Identical) in Hk as [_ (i & j & ? & ? & H1 & _)]. eauto.
        * apply (Hfiled Modified) in Hk as [_ (i & j & ? & ? & H1 & _)]. eauto.
        * apply (Hfiled OnlyLeft) in Hk as [_ [? _]]. done.
      + intros Hsome.
        assert (key ∈ classified_keys (rows d)) as Hin
          by (apply Hall, elem_of_all_keys; by left).
        unfold classified_keys in Hin. rewrite !elem_of_app in Hin.
        destruct Hin as [?|[?|[?|Hk]]]; auto.
        apply (Hfiled OnlyRight) in Hk as [_ [Hnone _]].
        destruct Hsome. simpl in *. congruence. }
  assert (keys_identical (rows d) ++ keys_modified (rows d)
          ++ keys_only_in_file2 (rows d) ≡ₚ elements (dom (df2_dict df1 df2))) as P2.
  { apply NoDup_Permutation; [|apply NoDup_elements|].
    - rewrite !NoDup_app. split_and!; try done.
      + intros key HkI [HkM|HkR]%elem_of_app.
        * by apply (Hdisj Identical Modified key).
        * by apply (Hdisj Identical OnlyRight key).
      + intros key HkM HkR. by apply (Hdisj Modified OnlyRight key).
    - intros key. rewrite elem_of_elements, elem_of_dom, !elem_of_app. split.
      + intros [Hk|[Hk|Hk]].
        * apply (Hfiled Identical) in Hk as [_ (i & j & ? & ? & _ & H2 & _)]. eauto.
        * apply (Hfiled Modified) in Hk as [_ (i & j & ? & ? & _ & H2 & _)]. eauto.
        * apply (Hfiled OnlyRight) in Hk as [_ [_ ?]]. done.
      + intros Hsome.
        assert (key ∈ classified_keys (rows d)) as Hin
          by (apply Hall, elem_of_all_keys; by right).
        unfold classified_keys in Hin. rewrite !elem_of_app in Hin.
        destruct Hin as [?|[?|[Hk|?]]]; auto.
        apply (Hfiled OnlyLeft) in Hk as [_ [_ Hnone]].
        destruct Hsome. simpl in *. congruence. }
  apply Permutation_length in P1, P2, Hperm.
  unfold classified_keys in Hperm.
  unfold keys_identical, keys_modified, keys_only_in_file1, keys_only_in_file2
    in P1, P2, Hperm.
  repeat rewrite ?length_app, ?length_fmap in P1.
  repeat rewrite ?length_app, ?length_fmap in P2.
  repeat rewrite ?length_app, ?length_fmap in Hperm.
  change (length (elements (dom (df1_dict df1 df2))))
    with (size (dom (df1_dict df1 df2))) in P1.
  change (length (elements (dom (df2_dict df1 df2))))
    with (size (dom (df2_dict df1 df2))) in P2.
  change (length (elements (all_keys df1 df2))) with (size (all_keys df1 df2)) in Hperm.
  rewrite size_dom in P1, P2.
  split_and!; try lia.
  - unfold df1_dict. rewrite key_dict_size.
    etrans; [apply size_list_to_set_le|].
    unfold composite_key_column. by rewrite length_fmap.
  - unfold df2_dict. rewrite key_dict_size.
    etrans; [apply size_list_to_set_le|].
    unfold composite_key_column. by rewrite length_fmap.
Qed.


(** X4. The counts of the summary add up: identical, modified and
    only-in-file-1 rows together are as many as file 1 has distinct
    composite keys, which is at most its number of rows; likewise for
    file 2; and the four counts together are the number of distinct keys of
    the two files. *)
Theorem summary_counts_add_up order df1 df2 :
  ∃ d, analyze_differences order df1 df2 = Some d
       ∧ sum_identical_rows (summary d) + sum_modified_rows (summary d)
         + sum_rows_only_in_file1 (summary d)
         = size (df1_dict df1 df2)
       ∧ sum_identical_rows (summary d) + sum_modified_rows (summary d)
         + sum_rows_only_in_file2 (summary d)
         = size (df2_dict df1 df2)
       ∧ (size (df1_dict df1 df2) ≤ sum_total_rows_file1 (summary d))%nat
       ∧ (size (df2_dict df1 df2) ≤ sum_total_rows_file2 (summary d))%nat
       ∧ sum_identical_rows (summary d) + sum_modified_rows (summary d)
         + sum_rows_only_in_file1 (summary d) + sum_rows_only_in_file2 (summary d)
         = size (all_keys df1 df2).
Proof.
  destruct (analyze_differences_rows order df1 df2) as (d & Hd & _).
  exists d. split; [done|]. exact (analysis_counts order _ _ _ Hd).
Qed.

(** ** Exchanging the sheets, the enumeration, the order of the rows *)

Lemma cell_changed_sym val1 val2 : cell_changed val1 val2 → cell_changed val2 val1.
Proof. unfold cell_changed. naive_solver. Qed.

Lemma available_identifiers_sym df1 df2 :
  available_identifiers df2 df1 = available_identifiers df1 df2.
Proof.
  unfold available_identifiers. apply list_filter_iff.
  intros identifier. unfold in_both. tauto.
Qed.

Lemma missing_identifiers_sym df1 df2 :
  missing_identifiers df2 df1 = missing_identifiers df1 df2.
Proof.
  unfold missing_identifiers. apply list_filter_iff.
  intros identifier. unfold in_both. tauto.
Qed.

Lemma common_columns_sym order df1 df2 :
  common_columns order df2 df1 = common_columns order df1 df2.
Proof. unfold common_columns. f_equal. set_solver. Qed.

Lemma all_keys_sym df1 df2 : all_keys df2 df1 = all_keys df1 df2.
Proof.
  unfold all_keys, df1_dict, df2_dict. rewrite available_identifiers_sym. set_solver.
Qed.

(** The outcome of a key with the two sheets exchanged. *)
Lemma outcome_of_swap df1 df2 dict1 dict2 columns key o :
  outcome_of df1 df2 dict1 dict2 columns key o →
  outcome_of df2 df1 dict2 dict1 columns key (swap_outcome o).
Proof.
  destruct o; simpl.
  - intros (i & j & row1 & row2 & H1 & H2 & Hr1 & Hr2 & Hagree).
    exists j, i, row2, row1. split_and!; try done.
    intros col Hcol. destruct (Hagree col Hcol) as (v1 & v2 & Hv1 & Hv2 & Hno).
    exists v2, v1. split_and!; try done. intros Hc. by apply Hno, cell_changed_sym.
  - intros (i & j & row1 & row2 & H1 & H2 & Hr1 & Hr2 & col & v1 & v2 & Hcol & Hv1 & Hv2 & Hc).
    exists j, i, row2, row1. split_and!; try done.
    exists col, v2, v1. split_and!; try done. by apply cell_changed_sym.
  - tauto.
  - tauto.
Qed.

(** The outcome of a key depends on the frames and dictionaries through
    the rows the key stands for, and on the columns through their set. *)
Lemma outcome_of_ext df1 df2 dict1 dict2 columns df1' df2' dict1' dict2' columns'
    key o :
  (∀ row, (∃ i, dict1 !! key = Some i ∧ iloc df1 i = Some row)
          → ∃ i, dict1' !! key = Some i ∧ iloc df1' i = Some row) →
  (∀ row, (∃ j, dict2 !! key = Some j ∧ iloc df2 j = Some row)
          → ∃ j, dict2' !! key = Some j ∧ iloc df2' j = Some row) →
  (is_Some (dict1 !! key) ↔ is_Some (dict1' !! key)) →
  (is_Some (dict2 !! key) ↔ is_Some (dict2' !! key)) →
  (∀ col, col ∈ columns ↔ col ∈ columns') →
  outcome_of df1 df2 dict1 dict2 columns key o →
  outcome_of df1' df2' dict1' dict2' columns' key o.
Proof.
  intros Hrow1 Hrow2 Hs1 Hs2 Hcols.
  destruct o; simpl.
  - intros (i & j & row1 & row2 & H1 & H2 & Hr1 & Hr2 & Hagree).
    destruct (Hrow1 row1) as (i' & ? & ?); [eauto|].
    destruct (Hrow2 row2) as (j' & ? & ?); [eauto|].
    exists i', j', row1, row2. split_and!; try done.
    intros col Hcol%Hcols. by apply Hagree.
  - intros (i & j & row1 & row2 & H1 & H2 & Hr1 & Hr2 & col & v1 & v2 & Hcol & Hrest).
    destruct (Hrow1 row1) as (i' & ? & ?); [eauto|].
    destruct (Hrow2 row2) as (j' & ? & ?); [eauto|].
    exists i', j', row1, row2. split_and!; try done.
    exists col, v1, v2. split; [by apply Hcols|done].
  - intros [Hsome Hnone]. split; [by apply Hs1|].
    apply eq_None_not_Some. rewrite <- Hs2. by rewrite Hnone; intros [? ?].
  - intros [Hnone Hsome]. split; [|by apply Hs2].
    apply eq_None_not_Some. rewrite <- Hs1. by rewrite Hnone; intros [? ?].
Qed.

(** Two results that file the same keys under two outcomes file them in
    lists that are permutations of each other. *)
Lemma filed_Permutation found found' o o' :
  NoDup (classified_keys found) → NoDup (classified_keys found') →
  (∀ key, key ∈ filed found o ↔ key ∈ filed found' o') →
  filed found o ≡ₚ filed found' o'.
Proof. intros. apply NoDup_Permutation; [by apply NoDup_filed..|done]. Qed.

(** X5. Exchanging the two sheets exchanges the two only-in-one-file
    lists and keeps the identical and the modified keys: each list of the
    exchanged analysis holds, up to order, the keys of its counterpart, and
    the summary counts follow. *)
Theorem exchanging_sheets_exchanges_only_lists order df1 df2 :
  ∃ d d', analyze_differences order df1 df2 = Some d
          ∧ analyze_differences order df2 df1 = Some d'
          ∧ keys_identical (rows d') ≡ₚ keys_identical (rows d)
          ∧ keys_modified (rows d') ≡ₚ keys_modified (rows d)
          ∧ keys_only_in_file1 (rows d') ≡ₚ keys_only_in_file2 (rows d)
          ∧ keys_only_in_file2 (rows d') ≡ₚ keys_only_in_file1 (rows d)
          ∧ sum_identical_rows (summary d') = sum_identical_rows (summary d)
          ∧ sum_modified_rows (summary d') = sum_modified_rows (summary d)
          ∧ sum_rows_only_in_file1 (summary d') = sum_rows_only_in_file2 (summary d)
          ∧ sum_rows_only_in_file2 (summary d') = sum_rows_only_in_file1 (summary d).
Proof.
  destruct (analyze_differences_rows order df1 df2) as (d & Hd & _).
  destruct (analyze_differences_rows order df2 df1) as (d' & Hd' & _).
  exists d, d'. split; [done|]. split; [done|].
  destruct (analyze_differences_keys _ _ _ _ Hd) as (Hnodup & _ & Hfiled).
  destruct (analyze_differences_keys _ _ _ _ Hd') as (Hnodup' & _ & Hfiled').
  assert (∀ o, filed (rows d') (swap_outcome o) ≡ₚ filed (rows d) o) as Hswap.
  { intros o. apply filed_Permutation; [done..|].
    intros key. rewrite Hfiled, Hfiled', all_keys_sym, common_columns_sym.
    unfold df1_dict, df2_dict. rewrite (available_identifiers_sym df1 df2).
    split; intros [? Hout]; (split; [done|]);
      apply outcome_of_swap in Hout; by destruct o. }
  destruct (analyze_differences_summary _ _ _ _ Hd) as (S1 & S2 & S3 & S4).
  destruct (analyze_differences_summary _ _ _ _ Hd') as (S1' & S2' & S3' & S4').
  pose proof (Hswap Identical) as PI. pose proof (Hswap Modified) as PM.
  pose proof (Hswap OnlyLeft) as PL. pose proof (Hswap OnlyRight) as PR.
  simpl in PI, PM, PL, PR. split_and!; try done.
  all: apply Permutation_length in PI, PM, PL, PR.
  all: unfold keys_identical, keys_modified, keys_only_in_file1, keys_only_in_file2
         in PI, PM, PL, PR.
  all: rewrite !length_fmap in PI; rewrite !length_fmap in PM;
    rewrite !length_fmap in PL; rewrite !length_fmap in PR; lia.
Qed.

(** X6. The order in which Python enumerates its sets does not matter:
    under two enumerations the analysis files the same keys under each
    outcome, up to the order of the lists, and reports the same counts. *)
Theorem set_order_is_irrelevant order order' df1 df2 :
  ∃ d d', analyze_differences order df1 df2 = Some d
          ∧ analyze_differences order' df1 df2 = Some d'
          ∧ (∀ o, filed (rows d') o ≡ₚ filed (rows d) o)
          ∧ sum_identical_rows (summary d') = sum_identical_rows (summary d)
          ∧ sum_modified_rows (summary d') = sum_modified_rows (summary d)
          ∧ sum_rows_only_in_file1 (summary d') = sum_rows_only_in_file1 (summary d)
          ∧ sum_rows_only_in_file2 (summary d') = sum_rows_only_in_file2 (summary d).
Proof.
  destruct (analyze_differences_rows order df1 df2) as (d & Hd & _).
  destruct (analyze_differences_rows order' df1 df2) as (d' & Hd' & _).
  exists d, d'. split; [done|]. split; [done|].
  destruct (analyze_differences_keys _ _ _ _ Hd) as (Hnodup & _ & Hfiled).
  destruct (analyze_differences_keys _ _ _ _ Hd') as (Hnodup' & _ & Hfiled').
  assert (∀ o, filed (rows d') o ≡ₚ filed (rows d) o) as Hsame.
  { intros o. apply filed_Permutation; [done..|].
    intros key. rewrite Hfiled, Hfiled'.
    split; intros [? Hout]; (split; [done|]); revert Hout;
      apply outcome_of_ext; try done;
      intros col; by rewrite !elem_of_common_columns. }
  split; [done|].
  destruct (analyze_differences_summary _ _ _ _ Hd) as (-> & -> & -> & ->).
  destruct (analyze_differences_summary _ _ _ _ Hd') as (-> & -> & -> & ->).
  pose proof (Hsame Identical) as PI. pose proof (Hsame Modified) as PM.
  pose proof (Hsame OnlyLeft) as PL. pose proof (Hsame OnlyRight) as PR.
  simpl in PI, PM, PL, PR.
  apply Permutation_length in PI, PM, PL, PR.
  unfold keys_identical, keys_modified, keys_only_in_file1, keys_only_in_file2
    in PI, PM, PL, PR.
  rewrite !length_fmap in PI; rewrite !length_fmap in PM;
    rewrite !length_fmap in PL; rewrite !length_fmap in PR. done.
Qed.

(** With no key twice in the key column, the dictionary maps each key
    to the position of its row. *)
Lemma key_dict_NoDup df identifiers key i :
  NoDup (composite_key_column df identifiers) →
  composite_key_column df identifiers !! i = Some key →
  key_dict df identifiers !! key = Some i.
Proof.
  intros Hnodup Hi. unfold key_dict.
  rewrite (index_from_last 0 _ ∅ key i); [done..|].
  intros j Hlt Hj. pose proof (NoDup_lookup _ _ _ _ Hnodup Hi Hj). lia.
Qed.

(** The row a key stands for, when no key occurs twice: the row of the
    sheet that has this key. *)
Lemma row_of_key_NoDup df identifiers key row :
  NoDup (composite_key_column df identifiers) →
  (∃ i, key_dict df identifiers !! key = Some i ∧ iloc df i = Some row)
  ↔ ∃ r, r ∈ df_rows df ∧ row = row_series (df_columns df) r
         ∧ create_composite_key row identifiers = key.
Proof.
  intros Hnodup. split.
  - intros (i & Hi & Hrow). destruct (key_dict_Some _ _ _ _ Hi) as (r & Hr & Hkey).
    apply iloc_Some in Hrow as (r' & Hr' & ->).
    assert (r' = r) as -> by congruence.
    exists r. split_and!; [by eapply list_elem_of_lookup_2|done..].
  - intros (r & [i Hi]%list_elem_of_lookup_1 & -> & Hkey). exists i. split.
    + apply key_dict_NoDup; [done|].
      unfold composite_key_column. rewrite list_lookup_fmap, Hi. simpl. by f_equal.
    + apply iloc_Some. eauto.
Qed.

Lemma key_dict_is_Some df identifiers key :
  is_Some (key_dict df identifiers !! key)
  ↔ ∃ r, r ∈ df_rows df
         ∧ create_composite_key (row_series (df_columns df) r) identifiers = key.
Proof.
  rewrite <- elem_of_dom, key_dict_dom, elem_of_list_to_set.
  unfold composite_key_column. rewrite list_elem_of_fmap. naive_solver.
Qed.

(** X7. Matching is by key, not by position: when no composite key occurs
    twice in either sheet, reordering the rows of the sheets changes nothing
    in what is filed under each outcome, up to the order of the lists. *)
Theorem row_order_is_irrelevant order df1 df2 rows1 rows2 :
  rows1 ≡ₚ df_rows df1 →
  rows2 ≡ₚ df_rows df2 →
  NoDup (composite_key_column df1 (available_identifiers df1 df2)) →
  NoDup (composite_key_column df2 (available_identifiers df1 df2)) →
  ∃ d d', analyze_differences order df1 df2 = Some d
          ∧ analyze_differences order (with_rows df1 rows1) (with_rows df2 rows2)
            = Some d'
          ∧ ∀ o, filed (rows d') o ≡ₚ filed (rows d) o.
Proof.
  intros Hp1 Hp2 Hn1 Hn2.
  destruct (analyze_differences_rows order df1 df2) as (d & Hd & _).
  destruct (analyze_differences_rows order (with_rows df1 rows1) (with_rows df2 rows2))
    as (d' & Hd' & _).
  exists d, d'. split; [done|]. split; [done|].
  destruct (analyze_differences_keys _ _ _ _ Hd) as (Hnodup & _ & Hfiled).
  destruct (analyze_differences_keys _ _ _ _ Hd') as (Hnodup' & _ & Hfiled').
  set (available := available_identifiers df1 df2) in *.
  assert (available_identifiers (with_rows df1 rows1) (with_rows df2 rows2) = available)
    as Havail by done.
  assert (NoDup (composite_key_column (with_rows df1 rows1) available)) as Hn1'.
  { unfold composite_key_column. simpl. by rewrite Hp1. }
  assert (NoDup (composite_key_column (with_rows df2 rows2) available)) as Hn2'.
  { unfold composite_key_column. simpl. by rewrite Hp2. }
  assert (∀ key row,
            (∃ i, df1_dict df1 df2 !! key = Some i ∧ iloc df1 i = Some row)
            ↔ ∃ i, df1_dict (with_rows df1 rows1) (with_rows df2 rows2) !! key = Some i
                   ∧ iloc (with_rows df1 rows1) i = Some row) as Hrow1.
  { intros key row. unfold df1_dict. rewrite Havail. fold available.
    rewrite !row_of_key_NoDup by done. simpl. by setoid_rewrite Hp1. }
  assert (∀ key row,
            (∃ j, df2_dict df1 df2 !! key = Some j ∧ iloc df2 j = Some row)
            ↔ ∃ j, df2_dict (with_rows df1 rows1) (with_rows df2 rows2) !! key = Some j
                   ∧ iloc (with_rows df2 rows2) j = Some row) as Hrow2.
  { intros key row. unfold df2_dict. rewrite Havail. fold available.
    rewrite !row_of_key_NoDup by done. simpl. by setoid_rewrite Hp2. }
  assert (∀ key, is_Some (df1_dict df1 df2 !! key)
                 ↔ is_Some (df1_dict (with_rows df1 rows1) (with_rows df2 rows2) !! key))
    as Hs1.
  { intros key. unfold df1_dict. rewrite Havail. fold available.
    rewrite !key_dict_is_Some. simpl. by setoid_rewrite Hp1. }
  assert (∀ key, is_Some (df2_dict df1 df2 !! key)
                 ↔ is_Some (df2_dict (with_rows df1 rows1) (with_rows df2 rows2) !! key))
    as Hs2.
  { intros key. unfold df2_dict. rewrite Havail. fold available.
    rewrite !key_dict_is_Some. simpl. by setoid_rewrite Hp2. }
  intros o. apply filed_Permutation; [done..|].
  intros key. rewrite Hfiled, Hfiled', !elem_of_all_keys, <- Hs1, <- Hs2.
  split; intros [? Hout]; (split; [done|]); revert Hout;
    apply outcome_of_ext; try done;
    try (intros row; apply Hrow1); try (intros row; apply Hrow2);
    try (symmetry; apply Hs1); try (symmetry; apply Hs2).
Qed.

Lemma row_order_is_irrelevant_witness :
  ∃ d d', analyze_differences elements_order two_rows_left two_rows_right = Some d
          ∧ analyze_differences elements_order
              (with_rows two_rows_left (reverse (df_rows two_rows_left)))
              (with_rows two_rows_right (reverse (df_rows two_rows_right)))
            = Some d'
          ∧ ∀ o, filed (rows d') o ≡ₚ filed (rows d) o.
Proof.
  apply row_order_is_irrelevant.
  - apply reverse_Permutation.
  - apply reverse_Permutation.
  - apply (bool_decide_unpack _). vm_compute. exact I.
  - apply (bool_decide_unpack _). vm_compute. exact I.
Defined.

(** ** Comparing two workbooks *)

Lemma to_list_nil order (s : gset string) : to_list order s = [] ↔ s = ∅.
Proof.
  split.
  - intros Hnil. pose proof (to_list_perm order s) as Hperm. rewrite Hnil in Hperm.
    symmetry in Hperm. apply Permutation_nil_r in Hperm.
    by apply leibniz_equiv, elements_empty_iff.
  - intros ->. apply Permutation_nil_r. rewrite (to_list_perm order ∅).
    by rewrite elements_empty.
Qed.

(** No sheet of both workbooks is skipped: the comparison of a sheet
    never raises. *)
Lemma compare_sheets_all order file1 file2 sheets :
  (∀ name, name ∈ sheets → is_Some (file1 !! name) ∧ is_Some (file2 !! name)) →
  Forall2 (sheet_compared order file1 file2) sheets
    (compare_sheets order file1 file2 sheets).
Proof.
  induction sheets as [|name sheets IH]; intros Hin; simpl; [constructor|].
  destruct (Hin name) as [[df1 H1] [df2 H2]]; [by left|].
  rewrite H1, H2. simpl.
  destruct (analyze_differences_rows order df1 df2) as (d & Hd & _).
  rewrite Hd. simpl. constructor.
  - split; [done|]. exists df1, df2. done.
  - apply IH. intros n Hn. apply Hin. by right.
Qed.

(** X8. Two workbooks that were read are compared sheet by sheet: the
    result is [None] exactly when they share no sheet name; otherwise the
    results list the shared sheet names, each once, in the order visited,
    and the entry of a sheet holds the statistics and the analysis of its
    two frames.  No shared sheet is left out. *)
Theorem every_common_sheet_is_compared order file1 file2 :
  (compare_excel_files order file1 file2 = None ↔ dom file1 ∩ dom file2 = ∅)
  ∧ ∀ results,
      compare_excel_files order file1 file2 = Some results →
      results.*1 = to_list order (dom file1 ∩ dom file2)
      ∧ NoDup (results.*1)
      ∧ (∀ sheet_name, sheet_name ∈ results.*1
                       ↔ is_Some (file1 !! sheet_name) ∧ is_Some (file2 !! sheet_name))
      ∧ ∀ entry, entry ∈ results →
          sheet_compared order file1 file2 entry.1 entry.
Proof.
  unfold compare_excel_files.
  pose proof (compare_sheets_all order file1 file2
                (to_list order (dom file1 ∩ dom file2))) as Hall.
  assert (∀ name, name ∈ to_list order (dom file1 ∩ dom file2)
                  ↔ is_Some (file1 !! name) ∧ is_Some (file2 !! name)) as Hin.
  { intros name. by rewrite elem_of_to_list, elem_of_intersection, !elem_of_dom. }
  specialize (Hall (λ name, proj1 (Hin name))).
  pose proof (to_list_nil order (dom file1 ∩ dom file2)) as Hnil.
  destruct (to_list order (dom file1 ∩ dom file2)) as [|name sheets] eqn:Hsheets.
  - split; [split; [intros _; by apply Hnil|done]|]. done.
  - split; [split; [done|intros Hempty; by apply Hnil in Hempty]|].
    intros results Hres.
    set (found := compare_sheets order file1 file2 (name :: sheets)) in *.
    assert (results = found) as -> by congruence.
    clearbody found.
    assert (found.*1 = name :: sheets) as Hnames.
    { clear -Hall. induction Hall as [|n e ns es [Hn _] _ IH]; [done|].
      rewrite fmap_cons. by f_equal. }
    split_and!.
    + done.
    + rewrite Hnames, <- Hsheets. apply NoDup_to_list.
    + intros sheet_name. rewrite Hnames. apply Hin.
    + intros entry [i Hi]%list_elem_of_lookup_1.
      destruct (Forall2_lookup_r _ _ _ _ _ Hall Hi) as (n & _ & Hn).
      destruct Hn as [Hname Hrest]. rewrite Hname. by split.
Qed.

(** A sheet analysed against itself shows no difference. *)
Lemma self_analysis_counts order df d :
  analyze_differences order df df = Some d →
  sum_modified_rows (summary d) = 0
  ∧ sum_rows_only_in_file1 (summary d) = 0
  ∧ sum_rows_only_in_file2 (summary d) = 0.
Proof.
  intros Hd.
  destruct (analyze_differences_keys _ _ _ _ Hd) as (_ & _ & Hfiled).
  destruct (analyze_differences_summary _ _ _ _ Hd) as (_ & -> & -> & ->).
  assert (∀ o key, o ≠ Identical → key ∉ filed (rows d) o) as Hnone.
  { intros o key Ho [[[i Hi]|[i Hi]]%elem_of_all_keys Hout]%Hfiled; apply Ho;
      (eapply outcome_unique; [exact Hout|]);
      destruct (key_dict_Some _ _ _ _ Hi) as (r & Hr & _);
      exists i, i, (row_series (df_columns df) r), (row_series (df_columns df) r);
      (split_and!; [done|done|apply iloc_Some; eauto|apply iloc_Some; eauto|]);
      intros col [Hcol _]%elem_of_common_columns;
      exists (cell r col), (cell r col);
      rewrite row_series_lookup_in by done;
      (split_and!; [done|done|apply cell_unchanged_refl]). }
  pose proof (elem_of_nil_inv _ (λ key, Hnone Modified key ltac:(done))) as HM.
  pose proof (elem_of_nil_inv _ (λ key, Hnone OnlyLeft key ltac:(done))) as HL.
  pose proof (elem_of_nil_inv _ (λ key, Hnone OnlyRight key ltac:(done))) as HR.
  simpl in HM, HL, HR.
  apply fmap_nil_inv in HM. apply fmap_nil_inv in HL. apply fmap_nil_inv in HR.
  by rewrite HM, HL, HR.
Qed.

(** X9. A workbook compared with itself: the comparison fails only for a
    workbook without sheets; otherwise every sheet is compared, and the
    overall report counts all the sheets, none with differences, no modified
    row, no row only in one file, and says that the files are identical. *)
Theorem workbook_against_itself order file :
  (compare_excel_files order file file = None ↔ file = ∅)
  ∧ ∀ results,
      compare_excel_files order file file = Some results →
      total_sheets (generate_summary_report results) = size file
      ∧ sheets_with_differences (generate_summary_report results) = 0
      ∧ total_modifications (generate_summary_report results) = 0
      ∧ total_missing_rows_file1 (generate_summary_report results) = 0
      ∧ total_missing_rows_file2 (generate_summary_report results) = 0
      ∧ files_identical (generate_summary_report results) = true.
Proof.
  pose proof (compare_sheets_all order file file (to_list order (dom file ∩ dom file)))
    as Hall.
  assert (∀ name, name ∈ to_list order (dom file ∩ dom file)
                  → is_Some (file !! name) ∧ is_Some (file !! name)) as Hin.
  { intros name. rewrite elem_of_to_list, elem_of_intersection, !elem_of_dom. tauto. }
  specialize (Hall Hin).
  pose proof (to_list_nil order (dom file ∩ dom file)) as Hnil.
  pose proof (length_to_list order (dom file ∩ dom file)) as Hlen.
  replace (dom file ∩ dom file) with (dom file) in * by set_solver.
  rewrite size_dom in Hlen. rewrite dom_empty_iff_L in Hnil.
  unfold compare_excel_files.
  replace (dom file ∩ dom file) with (dom file) by set_solver.
  destruct (to_list order (dom file)) as [|name sheets] eqn:Hsheets.
  - split; [split; [intros _; by apply Hnil|done]|]. done.
  - split; [split; [done|intros Hempty; by apply Hnil in Hempty]|].
    intros results Hres.
    set (found := compare_sheets order file file (name :: sheets)) in *.
    assert (results = found) as -> by congruence.
    clearbody found.
    assert (Forall (λ entry, sheet_modified entry = 0 ∧ sheet_only_left entry = 0
                            ∧ sheet_only_right entry = 0) found) as Hzero.
    { apply Forall_forall. intros entry [i Hi]%list_elem_of_lookup_1.
      destruct (Forall2_lookup_r _ _ _ _ _ Hall Hi)
        as (n & _ & _ & df1 & df2 & H1 & H2 & Hd & _).
      assert (df2 = df1) as -> by congruence.
      by apply self_analysis_counts in Hd. }
    unfold generate_summary_report. simpl.
    destruct (foldl_add_sheet found
                {| t_sheets_with_differences := 0; t_modifications := 0;
                   t_missing_rows_file1 := 0; t_missing_rows_file2 := 0 |})
      as (T1 & T2 & T3 & T4).
    simpl in T1, T2, T3, T4. rewrite T1, T2, T3, T4.
    assert (sum_list_with sheet_modified found = 0) as ->.
    { apply sum_list_with_zero. eapply Forall_impl; [done|]. naive_solver. }
    assert (sum_list_with sheet_only_left found = 0) as ->.
    { apply sum_list_with_zero. eapply Forall_impl; [done|]. naive_solver. }
    assert (sum_list_with sheet_only_right found = 0) as ->.
    { apply sum_list_with_zero. eapply Forall_impl; [done|]. naive_solver. }
    assert (filter sheet_differs found = []) as ->.
    { apply elem_of_nil_inv. intros entry [Hdiff Hentry]%list_elem_of_filter.
      rewrite Forall_forall in Hzero. specialize (Hzero entry Hentry).
      unfold sheet_differs in Hdiff. lia. }
    split_and!; try done.
    rewrite <- Hlen. by rewrite (Forall2_length _ _ _ Hall).
Qed.

(** ** Console banner and overall report *)

Lemma results_ready_iff entry :
  results_ready (summary (differences entry.2)) = true ↔ sheet_differs entry.
Proof.
  unfold results_ready, sheet_differs, sheet_modified, sheet_only_left,
    sheet_only_right.
  rewrite !orb_true_iff, !Nat.ltb_lt. lia.
Qed.

(** X10. The closing line of a sheet's console summary and the overall
    report agree: the report counts as sheets with differences the sheets
    whose summary ends with "RESULTS READY", never more than the sheets
    compared, and declares the files identical exactly when that count is
    zero, that is when every sheet's summary ends with "NO DIFFERENCES
    FOUND". *)
Theorem banner_agrees_with_report comparison_results :
  sheets_with_differences (generate_summary_report comparison_results)
  = length (filter (λ entry, results_ready (summary (differences entry.2)) = true)
              comparison_results)
  ∧ (sheets_with_differences (generate_summary_report comparison_results)
     ≤ total_sheets (generate_summary_report comparison_results))%nat
  ∧ (files_identical (generate_summary_report comparison_results) = true
     ↔ sheets_with_differences (generate_summary_report comparison_results) = 0)
  ∧ (files_identical (generate_summary_report comparison_results) = true
     ↔ Forall (λ entry, results_ready (summary (differences entry.2)) = false)
         comparison_results).
Proof.
  unfold generate_summary_report. simpl.
  destruct (foldl_add_sheet comparison_results
              {| t_sheets_with_differences := 0; t_modifications := 0;
                 t_missing_rows_file1 := 0; t_missing_rows_file2 := 0 |})
    as (T1 & T2 & T3 & T4).
  simpl in T1, T2, T3, T4. rewrite T1, T2, T3, T4. clear T1 T2 T3 T4.
  assert (files_zero :
    (sum_list_with sheet_modified comparison_results =? 0)%nat
    && (sum_list_with sheet_only_left comparison_results =? 0)%nat
    && (sum_list_with sheet_only_right comparison_results =? 0)%nat = true
    ↔ Forall (λ entry, ¬ sheet_differs entry) comparison_results).
  { rewrite !andb_true_iff, !Nat.eqb_eq, !sum_list_with_zero, !Forall_forall.
    unfold sheet_differs. split.
    - intros [[H1 H2] H3] entry Hentry.
      specialize (H1 entry Hentry). specialize (H2 entry Hentry).
      specialize (H3 entry Hentry). lia.
    - intros H. split_and!; intros entry Hentry; specialize (H entry Hentry); lia. }
  assert (length (filter sheet_differs comparison_results) = 0
          ↔ Forall (λ entry, ¬ sheet_differs entry) comparison_results) as Hfilter.
  { rewrite length_zero_iff_nil. rewrite Forall_forall. split.
    - intros Hnil entry Hentry Hdiff.
      assert (entry ∈ filter sheet_differs comparison_results) as Hin
        by (by apply list_elem_of_filter).
      rewrite Hnil in Hin. by apply elem_of_nil in Hin.
    - intros H. apply elem_of_nil_inv. intros entry [? ?]%list_elem_of_filter.
      by apply (H entry). }
  split_and!.
  - f_equal. apply list_filter_iff. intros entry. by rewrite results_ready_iff.
  - apply length_filter.
  - by rewrite files_zero, Hfilter.
  - rewrite files_zero. apply Forall_iff. intros entry.
    rewrite <- results_ready_iff. by destruct (results_ready _).
Qed.

(** ** The report writer *)

(** X11. The Identifier_Analysis sheet of the report counts the distinct
    keys among the rows only in file 1 (and only in file 2); as no key is
    filed twice, these are the counts of the summary. *)
Theorem unique_key_counts_are_summary_counts order df1 df2 :
  ∃ d, analyze_differences order df1 df2 = Some d
       ∧ unique_key_count (rows_only_in_file1 (rows d))
         = sum_rows_only_in_file1 (summary d)
       ∧ unique_key_count (rows_only_in_file2 (rows d))
         = sum_rows_only_in_file2 (summary d).
Proof.
  destruct (analyze_differences_rows order df1 df2) as (d & Hd & _).
  exists d. split; [done|].
  destruct (analyze_differences_keys _ _ _ _ Hd) as (Hnodup & _).
  destruct (analyze_differences_summary _ _ _ _ Hd) as (_ & _ & -> & ->).
  pose proof (NoDup_filed _ OnlyLeft Hnodup) as NL.
  pose proof (NoDup_filed _ OnlyRight Hnodup) as NR.
  unfold unique_key_count. simpl in NL, NR.
  unfold keys_only_in_file1 in NL. unfold keys_only_in_file2 in NR.
  rewrite !size_list_to_set by done. by rewrite !length_fmap.
Qed.

Lemma py_take_all n s : (String.length s ≤ n)%nat → py_take n s = s.
Proof.
  revert n. induction s as [|c s IH]; intros [|n]; simpl; try done; try lia.
  intros Hle. f_equal. apply IH. lia.
Qed.

Lemma py_take_length n s : String.length (py_take n s) = n `min` String.length s.
Proof.
  revert n. induction s as [|c s IH]; intros [|n]; simpl; try done.
  by rewrite IH.
Qed.

(** X12. The detail sheet of a compared sheet is named [Details_] followed
    by the first 23 characters of the sheet name, so the name has at most 31
    characters; and two compared sheets whose names agree on their first 23
    characters get one and the same detail sheet name. *)
Theorem detail_sheet_name name :
  safe_sheet_name name = "Details_" +:+ py_take 23 name
  ∧ (String.length (safe_sheet_name name) ≤ 31)%nat
  ∧ ∀ other, py_take 23 other = py_take 23 name →
             safe_sheet_name other = safe_sheet_name name.
Proof.
  assert (∀ s, safe_sheet_name s = "Details_" +:+ py_take 23 s) as Heq.
  { intros s. unfold safe_sheet_name.
    change (String.length ("Details_" +:+ s)) with (8 + String.length s).
    destruct (31 <? 8 + String.length s)%nat eqn:Hlong.
    - reflexivity.
    - apply Nat.ltb_ge in Hlong. rewrite py_take_all by lia. done. }
  split_and!.
  - apply Heq.
  - rewrite Heq.
    change (String.length ("Details_" +:+ py_take 23 name))
      with (8 + String.length (py_take 23 name)).
    rewrite py_take_length. lia.
  - intros other Hsame. by rewrite !Heq, Hsame.
Qed.

(** ** Identifier columns and their values *)

Lemma extract_identifier_values_lookup row cols col :
  extract_identifier_values row cols !! col
  = if decide (col ∈ cols) then Some (identifier_token row col) else None.
Proof.
  unfold extract_identifier_values.
  assert (∀ m0 : gmap string string,
            foldl (λ values c, <[c := identifier_token row c]> values) m0 cols !! col
            = if decide (col ∈ cols) then Some (identifier_token row col)
              else m0 !! col) as Hgen.
  { induction cols as [|c cols IH]; intros m0.
    - simpl. done.
    - change (foldl (λ values c0, <[c0 := identifier_token row c0]> values) m0
                (c :: cols))
        with (foldl (λ values c0, <[c0 := identifier_token row c0]> values)
                (<[c := identifier_token row c]> m0) cols).
      rewrite IH.
      destruct (decide (col ∈ cols)) as [Hin|Hin],
               (decide (col ∈ c :: cols)) as [Hin'|Hin']; try done.
      + destruct Hin'. by right.
      + apply elem_of_cons in Hin' as [->|?]; [|done].
        by rewrite lookup_insert_eq.
      + rewrite lookup_insert_ne; [done|]. intros ->. apply Hin'. by left. }
  rewrite Hgen. by destruct (decide _).
Qed.

(** X13. The identifier values kept with an entry are the tokens of the
    identifier columns, one per column and none besides, and the composite
    key is these values joined by the separator in the order of the
    identifier list. *)
Theorem key_is_join_of_identifier_values row cols :
  dom (extract_identifier_values row cols) = list_to_set cols
  ∧ (∀ col, col ∈ cols →
            extract_identifier_values row cols !! col
            = Some (identifier_token row col))
  ∧ create_composite_key row cols
    = PyStr.join "|"
        ((λ col, default "" (extract_identifier_values row cols !! col)) <$> cols).
Proof.
  split_and!.
  - apply set_eq. intros col.
    rewrite elem_of_dom, elem_of_list_to_set, extract_identifier_values_lookup.
    destruct (decide (col ∈ cols)); [by split; eauto|].
    split; [by intros [? ?]|done].
  - intros col Hcol. rewrite extract_identifier_values_lookup.
    by rewrite decide_True.
  - unfold create_composite_key. f_equal. apply fmap_eq_pointwise.
    intros col Hcol. rewrite extract_identifier_values_lookup.
    by rewrite decide_True.
Qed.

(** X14. The analysis splits the configured identifiers in two: the
    available ones, which are columns of both sheets, and the missing ones;
    each configured identifier is reported in exactly one of the two lists,
    in the configured order, and exchanging the sheets changes neither
    list. *)
Theorem identifiers_split_in_two order df1 df2 :
  ∃ d d', analyze_differences order df1 df2 = Some d
          ∧ analyze_differences order df2 df1 = Some d'
          ∧ sum_available_identifiers (summary d) ++ sum_missing_identifiers (summary d)
            ≡ₚ UNIQUE_IDENTIFIERS
          ∧ sum_available_identifiers (summary d) `sublist_of` UNIQUE_IDENTIFIERS
          ∧ sum_missing_identifiers (summary d) `sublist_of` UNIQUE_IDENTIFIERS
          ∧ (∀ col, col ∈ sum_available_identifiers (summary d)
                    ↔ col ∈ UNIQUE_IDENTIFIERS
                      ∧ col ∈ df_columns df1 ∧ col ∈ df_columns df2)
          ∧ (∀ col, col ∈ sum_missing_identifiers (summary d)
                    ↔ col ∈ UNIQUE_IDENTIFIERS
                      ∧ ¬ (col ∈ df_columns df1 ∧ col ∈ df_columns df2))
          ∧ length (sum_available_identifiers (summary d))
            + length (sum_missing_identifiers (summary d)) = 3
          ∧ sum_available_identifiers (summary d')
            = sum_available_identifiers (summary d)
          ∧ sum_missing_identifiers (summary d')
            = sum_missing_identifiers (summary d).
Proof.
  destruct (analyze_differences_rows order df1 df2) as (d & Hd & _).
  destruct (analyze_differences_rows order df2 df1) as (d' & Hd' & _).
  exists d, d'. split; [done|]. split; [done|].
  assert (∀ o a b e, analyze_differences o a b = Some e →
            sum_available_identifiers (summary e) = available_identifiers a b
            ∧ sum_missing_identifiers (summary e) = missing_identifiers a b) as Hsum.
  { intros o a b e. unfold analyze_differences.
    destruct (compare_keys _ _ _ _ _ _ _ _) as [found|]; [|done].
    simpl. by intros [= <-]. }
  destruct (Hsum _ _ _ _ Hd) as [-> ->]. destruct (Hsum _ _ _ _ Hd') as [-> ->].
  pose proof (filter_app_complement (in_both df1 df2) UNIQUE_IDENTIFIERS) as Hperm.
  split_and!.
  - done.
  - apply sublist_filter.
  - apply sublist_filter.
  - intros col. rewrite elem_of_available_identifiers. unfold in_both. tauto.
  - intros col. rewrite elem_of_missing_identifiers. unfold in_both. tauto.
  - apply Permutation_length in Hperm. by rewrite length_app in Hperm.
  - apply available_identifiers_sym.
  - apply missing_identifiers_sym.
Qed.

(** ** Blanks around an identifier *)

Section blanks.
Implicit Types (s p q : string).

Lemma lstrip_blank p : all_blank p = true → PyStr.lstrip p = EmptyString.
Proof.
  induction p as [|c p IH]; simpl; [done|].
  intros [Hc Hp]%andb_true_iff. rewrite Hc. auto.
Qed.

Lemma rstrip_blank q : all_blank q = true → PyStr.rstrip q = EmptyString.
Proof.
  induction q as [|c q IH]; simpl; [done|].
  intros [Hc Hq]%andb_true_iff. by rewrite IH, Hc.
Qed.

Lemma lstrip_blank_app p s :
  all_blank p = true → PyStr.lstrip (p +:+ s) = PyStr.lstrip s.
Proof.
  induction p as [|c p IH]; simpl; [done|].
  intros [Hc Hp]%andb_true_iff. rewrite Hc. auto.
Qed.

Lemma rstrip_app_blank s q :
  all_blank q = true → PyStr.rstrip (s +:+ q) = PyStr.rstrip s.
Proof.
  intros Hq. induction s as [|c s IH]; simpl.
  - by apply rstrip_blank.
  - by rewrite IH.
Qed.

Lemma strip_app_blank s q :
  all_blank q = true → PyStr.strip (s +:+ q) = PyStr.strip s.
Proof.
  intros Hq. unfold PyStr.strip. induction s as [|c s IH]; simpl.
  - by rewrite lstrip_blank.
  - destruct (PyStr.isspace c); [done|].
    change (String c (s +:+ q)) with (String c s +:+ q).
    by apply rstrip_app_blank.
Qed.

(** Blanks before and after a text are stripped away. *)
Lemma strip_padded p s q :
  all_blank p = true → all_blank q = true →
  PyStr.strip (p +:+ s +:+ q) = PyStr.strip s.
Proof.
  intros Hp Hq. unfold PyStr.strip. rewrite lstrip_blank_app by done.
  by apply strip_app_blank.
Qed.
End blanks.

(** X15. Blanks around the text of an identifier cell do not reach the
    key: two rows whose identifier cells are the same, or hold the same text
    with blanks added before and after it in the second row, have the same
    composite key. *)
Theorem padding_does_not_change_key row1 row2 cols :
  (∀ col, col ∈ cols →
     row1 !! col = row2 !! col
     ∨ ∃ s p q, row1 !! col = Some (VStr s)
                ∧ row2 !! col = Some (VStr (p +:+ s +:+ q))
                ∧ all_blank p = true ∧ all_blank q = true) →
  create_composite_key row1 cols = create_composite_key row2 cols.
Proof.
  intros Hcells. apply same_tokens_same_key. intros col Hcol.
  unfold identifier_token.
  destruct (Hcells col Hcol) as [->|(s & p & q & -> & -> & Hp & Hq)]; [done|].
  simpl. by rewrite strip_padded.
Qed.

Lemma padding_does_not_change_key_witness :
  create_composite_key trimmed_row ["Channel Name"; "Program Date"]
  = create_composite_key padded_row ["Channel Name"; "Program Date"].
Proof.
  apply padding_does_not_change_key. intros col Hcol.
  apply elem_of_cons in Hcol as [->|Hcol].
  - right. exists "A", " ", " ". vm_compute. done.
  - apply list_elem_of_singleton in Hcol as ->. left. vm_compute. reflexivity.
Defined.

(** Every entry of the results is the comparison of a sheet of both
    workbooks. *)
Lemma compare_excel_files_entries order file1 file2 results :
  compare_excel_files order file1 file2 = Some results →
  ∀ entry, entry ∈ results → sheet_compared order file1 file2 entry.1 entry.
Proof.
  unfold compare_excel_files.
  pose proof (compare_sheets_all order file1 file2
                (to_list order (dom file1 ∩ dom file2))) as Hall.
  assert (∀ name, name ∈ to_list order (dom file1 ∩ dom file2)
                  → is_Some (file1 !! name) ∧ is_Some (file2 !! name)) as Hin.
  { intros name. by rewrite elem_of_to_list, elem_of_intersection, !elem_of_dom. }
  specialize (Hall Hin).
  destruct (to_list order (dom file1 ∩ dom file2)) as [|name sheets]; [done|].
  intros Hres.
  set (found := compare_sheets order file1 file2 (name :: sheets)) in *.
  assert (results = found) as -> by congruence.
  clearbody found.
  intros entry [i Hi]%list_elem_of_lookup_1.
  destruct (Forall2_lookup_r _ _ _ _ _ Hall Hi) as (n & _ & Hn).
  destruct Hn as [Hname Hrest]. rewrite Hname. by split.
Qed.

(** ** The first modification of the report *)

Lemma no_or_some_modified_rows (results : list (string * SheetResult)) :
  Forall (λ entry, sheet_modified_rows entry = []) results
  ∨ Exists (λ entry, sheet_modified_rows entry ≠ []) results.
Proof.
  induction results as [|entry results [IH|IH]].
  - left. constructor.
  - destruct (sheet_modified_rows entry) eqn:Hrows.
    + left. by constructor.
    + right. apply Exists_cons_hd. by rewrite Hrows.
  - right. by apply Exists_cons_tl.
Qed.

(** With no modified row left without a changed column, [mod_all_data]
    is empty exactly when no sheet has a modified row. *)
Lemma mod_all_data_empty results :
  Forall (λ entry, Forall (λ modif, mr_modified_columns modif ≠ ∅)
                     (sheet_modified_rows entry)) results →
  mod_all_data_length results = 0
  ↔ Forall (λ entry, sheet_modified_rows entry = []) results.
Proof.
  intros Hne. unfold mod_all_data_length. rewrite sum_list_with_zero.
  rewrite !Forall_forall in *. split; intros H entry Hentry.
  - specialize (H entry Hentry). specialize (Hne entry Hentry).
    fold (sheet_modified_rows entry) in H.
    destruct (sheet_modified_rows entry) as [|modif others]; [done|].
    simpl in H. apply Forall_cons in Hne as [Hm _].
    apply map_size_non_empty_iff in Hm. lia.
  - fold (sheet_modified_rows entry). by rewrite (H entry Hentry).
Qed.

(** X16. Writing the report after a comparison looks for the first
    modification in the sheet compared first.  The lookup is skipped
    exactly when no sheet has a modified row; it gives the first modified
    row of the first sheet when that sheet has one; and it raises IndexError
    exactly when the first sheet has no modified row while a later sheet
    has one. *)
Theorem first_modification_of_report order file1 file2 results :
  compare_excel_files order file1 file2 = Some results →
  (first_mod results = NotNeeded
   ↔ Forall (λ entry, sheet_modified_rows entry = []) results)
  ∧ (first_mod results = IndexError
     ↔ ∃ entry rest,
         results = entry :: rest ∧ sheet_modified_rows entry = []
         ∧ Exists (λ later, sheet_modified_rows later ≠ []) rest)
  ∧ ∀ first,
      first_mod results = FirstOf first
      ↔ ∃ entry rest others,
          results = entry :: rest ∧ sheet_modified_rows entry = first :: others.
Proof.
  intros Hres.
  pose proof (compare_excel_files_entries order file1 file2 results Hres)
    as Hcompared.
  assert (Forall (λ entry, Forall (λ modif, mr_modified_columns modif ≠ ∅)
                             (sheet_modified_rows entry)) results) as Hne.
  { apply Forall_forall. intros entry Hentry.
    destruct (Hcompared entry Hentry) as (_ & df1 & df2 & _ & _ & Hd & _).
    destruct (analyze_differences_entries _ _ _ _ Hd) as (HM & _).
    eapply Forall_impl; [exact HM|].
    intros modif (? & ? & _ & _ & _ & _ & _ & Hm & _). done. }
  pose proof (mod_all_data_empty results Hne) as Hempty.
  unfold first_mod.
  destruct (mod_all_data_length results =? 0)%nat eqn:Hzero.
  - apply Nat.eqb_eq in Hzero. pose proof (proj1 Hempty Hzero) as Hall.
    split_and!; [by split| |].
    + split; [done|]. intros (entry & rest & -> & _ & Hex).
      apply Forall_cons in Hall as [_ Hall].
      apply Exists_exists in Hex as (later & Hin & Hlater).
      rewrite Forall_forall in Hall. by destruct Hlater; apply Hall.
    + intros first. split; [done|]. intros (entry & rest & others & -> & Hrows).
      apply Forall_cons in Hall as [Hentry _]. congruence.
  - apply Nat.eqb_neq in Hzero.
    assert (¬ Forall (λ entry, sheet_modified_rows entry = []) results) as Hnot
      by (by rewrite <- Hempty).
    destruct results as [|entry rest]; [destruct Hnot; constructor|].
    fold (sheet_modified_rows entry).
    destruct (sheet_modified_rows entry) as [|modif others] eqn:Hrows.
    + split_and!.
      * split; [done|]. intros Hall. by destruct Hnot.
      * split; [|done]. intros _. exists entry, rest. split_and!; [done..|].
        destruct (no_or_some_modified_rows rest) as [Hall|Hex]; [|done].
        destruct Hnot. by constructor.
      * intros first. split; [done|].
        intros (e & r & o & [= <- <-] & Hfirst). congruence.
    + split_and!.
      * split; [done|]. intros [Hentry _]%Forall_cons. congruence.
      * split; [done|]. intros (e & r & [= <- <-] & Hnil & _). congruence.
      * intros first. split.
        -- intros [= <-]. eauto.
        -- intros (e & r & o & [= <- <-] & Hfirst). congruence.
Qed.

Lemma first_modification_of_report_witness :
  first_mod book_results = IndexError
  ∧ (first_mod book_results = NotNeeded
     ↔ Forall (λ entry, sheet_modified_rows entry = []) book_results)
  ∧ (first_mod book_results = IndexError
     ↔ ∃ entry rest,
         book_results = entry :: rest ∧ sheet_modified_rows entry = []
         ∧ Exists (λ later, sheet_modified_rows later ≠ []) rest)
  ∧ ∀ first,
      first_mod book_results = FirstOf first
      ↔ ∃ entry rest others,
          book_results = entry :: rest ∧ sheet_modified_rows entry = first :: others.
Proof.
  split; [vm_compute; reflexivity|].
  apply (first_modification_of_report elements_order book_left book_right).
  vm_compute. reflexivity.
Defined.

(** ** Rows hidden by a later row with the same key *)

Lemma key_dict_not_shadowed df identifiers (i j : nat) key :
  i < j →
  composite_key_column df identifiers !! i = Some key →
  composite_key_column df identifiers !! j = Some key →
  ∀ key', key_dict df identifiers !! key' ≠ Some i.
Proof.
  intros Hlt Hi Hj key' (j0 & Hj0 & Hkey' & Hlast)%index_from_Some.
  simpl in Hj0. subst j0. assert (key' = key) as -> by congruence.
  by apply (Hlast j).
Qed.

Lemma size_list_to_set_lt (l : list string) (i j : nat) x :
  i < j → l !! i = Some x → l !! j = Some x →
  size (list_to_set (C := gset string) l) < length l.
Proof.
  intros Hlt Hi Hj.
  assert (list_to_set (C := gset string) l
          = list_to_set (take i l ++ drop (S i) l)) as ->.
  { rewrite <- (take_drop_middle l i x Hi) at 1.
    rewrite !list_to_set_app_L, list_to_set_cons.
    assert (x ∈ drop (S i) l) as Hx.
    { apply list_elem_of_lookup. exists (j - S i).
      rewrite lookup_drop. by replace (S i + (j - S i)) with j by lia. }
    apply (elem_of_list_to_set (C := gset string)) in Hx. set_solver. }
  eapply Nat.le_lt_trans; [apply size_list_to_set_le|].
  apply lookup_lt_Some in Hi.
  rewrite length_app, length_take, length_drop. lia.
Qed.

(** X17. A row of file 1 whose composite key comes again in a later row
    of file 1 is reported nowhere: no identical, modified or only-in-file-1
    entry has its position, and the rows of file 1 accounted for by the
    summary are fewer than the rows of file 1. *)
Theorem shadowed_row_is_not_reported order df1 df2 (i j : nat) key :
  i < j →
  composite_key_column df1 (available_identifiers df1 df2) !! i = Some key →
  composite_key_column df1 (available_identifiers df1 df2) !! j = Some key →
  ∃ d, analyze_differences order df1 df2 = Some d
       ∧ (∀ entry, entry ∈ identical_rows (rows d) → ir_file1_index entry ≠ i)
       ∧ (∀ entry, entry ∈ modified_rows (rows d) → mr_file1_index entry ≠ i)
       ∧ (∀ entry, entry ∈ rows_only_in_file1 (rows d) → ur_index entry ≠ i)
       ∧ sum_identical_rows (summary d) + sum_modified_rows (summary d)
         + sum_rows_only_in_file1 (summary d)
         < sum_total_rows_file1 (summary d).
Proof.
  intros Hlt Hi Hj.
  destruct (analyze_differences_rows order df1 df2) as (d & Hd & _).
  exists d. split; [done|].
  pose proof (key_dict_not_shadowed _ _ _ _ _ Hlt Hi Hj) as Hnot.
  destruct (analyze_differences_entries _ _ _ _ Hd) as (HM & HI & HL & _).
  rewrite Forall_forall in HM. rewrite Forall_forall in HI.
  rewrite Forall_forall in HL.
  split_and!.
  - intros entry (? & ? & H1 & _)%HI Heq. rewrite Heq in H1. by eapply Hnot.
  - intros entry (? & ? & H1 & _)%HM Heq. rewrite Heq in H1. by eapply Hnot.
  - intros entry (H1 & _)%HL Heq. rewrite Heq in H1. by eapply Hnot.
  - destruct (analysis_counts order _ _ _ Hd) as (-> & _).
    assert (sum_total_rows_file1 (summary d) = length (df_rows df1)) as ->.
    { revert Hd. unfold analyze_differences.
      destruct (compare_keys _ _ _ _ _ _ _ _) as [found|]; [|done].
      simpl. by intros [= <-]. }
    unfold df1_dict. rewrite key_dict_size.
    eapply Nat.lt_le_trans; [by eapply size_list_to_set_lt|].
    unfold composite_key_column. by rewrite length_fmap.
Qed.

Lemma shadowed_row_is_not_reported_witness :
  ∃ d, analyze_differences elements_order repeated_key sample_right = Some d
       ∧ (∀ entry, entry ∈ identical_rows (rows d) → ir_file1_index entry ≠ 0)
       ∧ (∀ entry, entry ∈ modified_rows (rows d) → mr_file1_index entry ≠ 0)
       ∧ (∀ entry, entry ∈ rows_only_in_file1 (rows d) → ur_index entry ≠ 0)
       ∧ sum_identical_rows (summary d) + sum_modified_rows (summary d)
         + sum_rows_only_in_file1 (summary d)
         < sum_total_rows_file1 (summary d).
Proof.
  apply (shadowed_row_is_not_reported elements_order repeated_key sample_right 0 1
           "A|2024-01-01|10:00"); [lia|vm_compute; reflexivity..].
Defined.

(** ** A sheet without rows *)

(** X18. Against a sheet without rows nothing is matched: there is no
    identical row, no modified row and no row only in file 2; the rows only
    in file 1 are one per composite key of file 1. *)
Theorem empty_right_sheet order df1 df2 :
  ∃ d, analyze_differences order df1 (with_rows df2 []) = Some d
       ∧ identical_rows (rows d) = []
       ∧ modified_rows (rows d) = []
       ∧ rows_only_in_file2 (rows d) = []
       ∧ (∀ key, key ∈ keys_only_in_file1 (rows d)
                 ↔ is_Some (df1_dict df1 (with_rows df2 []) !! key))
       ∧ sum_rows_only_in_file1 (summary d) = size (df1_dict df1 (with_rows df2 [])).
Proof.
  destruct (analyze_differences_rows order df1 (with_rows df2 [])) as (d & Hd & _).
  exists d. split; [done|].
  destruct (analyze_differences_keys _ _ _ _ Hd) as (Hnodup & Hall & Hfiled).
  assert (df2_dict df1 (with_rows df2 []) = ∅) as Hempty by done.
  assert (∀ o, o ≠ OnlyLeft → filed (rows d) o = []) as Hnone.
  { intros o Ho. apply elem_of_nil_inv. intros key [_ Hout]%Hfiled.
    rewrite Hempty in Hout. destruct o; simpl in Hout; try done.
    - destruct Hout as (? & ? & ? & ? & _ & H2 & _). by rewrite lookup_empty in H2.
    - destruct Hout as (? & ? & ? & ? & _ & H2 & _). by rewrite lookup_empty in H2.
    - destruct Hout as [_ [? H2]]. by rewrite lookup_empty in H2. }
  pose proof (Hnone Identical ltac:(done)) as HI.
  pose proof (Hnone Modified ltac:(done)) as HM.
  pose proof (Hnone OnlyRight ltac:(done)) as HR.
  simpl in HI, HM, HR.
  apply fmap_nil_inv in HI. apply fmap_nil_inv in HM. apply fmap_nil_inv in HR.
  split_and!; try done.
  - intros key. rewrite (Hfiled OnlyLeft). simpl. rewrite Hempty, lookup_empty.
    rewrite elem_of_all_keys. naive_solver.
  - destruct (analysis_counts order _ _ _ Hd) as (<- & _).
    destruct (analyze_differences_summary _ _ _ _ Hd) as (-> & -> & _).
    rewrite HI, HM. simpl. lia.
Qed.

(** ** One cell changed *)



Section one_cell.
Context (order : SetOrder) (df : DataFrame).
Context (i : nat) (r : gmap string Value) (col : string) (new_value : Value).

Local Abbreviation changed_row := (<[col := new_value]> r).
Local Abbreviation df' := (with_rows df (<[i := changed_row]> (df_rows df))).
Local Abbreviation available := (available_identifiers df df).

Hypothesis Hrow : df_rows df !! i = Some r.
Hypothesis Hcol : col ∈ df_columns df.
Hypothesis Hplain : col ∉ UNIQUE_IDENTIFIERS.




End one_cell.


